(** * Correlation data pipeline: fetch, align, correlate, persist

    A shallow embedding of [scripts/fetch_correlation_data.py] and the
    properties its specification states about it.

    Conventions of the embedding.
    - Python exceptions are an explicit [result] type; a function that can
      raise returns [result A].
    - Prices are Python floats.  Rounding is not modelled: a finite float is
      an exact number.  The Python-level arithmetic on prices only uses
      field operations and a zero test, so prices and returns live in [Q],
      where the zero test runs.  numpy's [sqrt] leaves the rationals, so a
      numpy [float64] is a real number or one of [inf], [-inf], [nan].
    - The file system is a log of write events, the network a function from
      the request to the response. *)

From Stdlib Require Import ZArith QArith Qreals Reals Lra Lia Psatz.
From stdpp Require Import gmap strings list sorting.

(** ** Python exceptions *)

Inductive exn :=
  | ZeroDivisionError
  | IndexError
  | KeyError
  | ValueError.

Inductive result (A : Type) :=
  | Ret (a : A)
  | Raise (e : exn).
Arguments Ret {A} a.
Arguments Raise {A} e.

(** The exception monad, with stdpp's [x ← m; k] notation. *)
#[global] Instance result_ret : MRet result := λ A a, Ret a.
#[global] Instance result_bind : MBind result := λ A B k m,
  match m with
  | Ret a => k a
  | Raise e => Raise e
  end.

(** A [for] loop whose body may raise: the state is threaded through the
    iterations and the first exception leaves the loop. *)
Fixpoint for_each {S I} (body : S → I → result S) (items : list I) (st : S)
  : result S :=
  match items with
  | [] => Ret st
  | i :: rest => st' ← body st i; for_each body rest st'
  end.

(** ** numpy's float64, rounding left out *)

Inductive float64 :=
  | Fin (r : R)
  | PInf
  | NInf
  | NaN.

(** What Python functions return here: the integer sentinel or a float. *)
Inductive value :=
  | VInt (z : Z)
  | VFloat (f : float64).

Module Np.

(** IEEE division as numpy performs it (a warning, never an exception). *)
Definition true_divide (a b : float64) : float64 :=
  match a, b with
  | NaN, _ | _, NaN => NaN
  | Fin x, Fin y =>
      if Req_dec_T y 0 then
        if Req_dec_T x 0 then NaN
        else if Rlt_dec 0 x then PInf else NInf
      else Fin (x / y)
  | Fin _, (PInf | NInf) => Fin 0
  | PInf, Fin y => if Rlt_dec y 0 then NInf else PInf
  | NInf, Fin y => if Rlt_dec y 0 then PInf else NInf
  | (PInf | NInf), (PInf | NInf) => NaN
  end.

Definition multiply (a b : float64) : float64 :=
  match a, b with
  | NaN, _ | _, NaN => NaN
  | Fin x, Fin y => Fin (x * y)
  | Fin x, PInf | PInf, Fin x =>
      if Req_dec_T x 0 then NaN else if Rlt_dec 0 x then PInf else NInf
  | Fin x, NInf | NInf, Fin x =>
      if Req_dec_T x 0 then NaN else if Rlt_dec 0 x then NInf else PInf
  | PInf, PInf | NInf, NInf => PInf
  | PInf, NInf | NInf, PInf => NInf
  end.

Definition sqrt (a : float64) : float64 :=
  match a with
  | Fin x => if Rlt_dec x 0 then NaN else Fin (R_sqrt.sqrt x)
  | PInf => PInf
  | NInf | NaN => NaN
  end.

(** [np.clip(a, lo, hi)] is [minimum(maximum(a, lo), hi)]. *)
Definition clip (a : float64) (lo hi : R) : float64 :=
  match a with
  | Fin x => Fin (Rmin (Rmax x lo) hi)
  | PInf => Fin hi
  | NInf => Fin (Rmin lo hi)
  | NaN => NaN
  end.

Definition sum (x : list R) : R := foldr Rplus 0%R x.

(** [np.average] of one row.  On an empty row numpy's mean is [nan]; no
    entry is centred with it then, so the real quotient stands for it. *)
Definition average (x : list R) : R := (sum x / INR (length x))%R.

(** [X -= avg[:, None]] on one row. *)
Definition center (x : list R) : list R := (λ v, (v - average x)%R) <$> x.

Definition dot (x y : list R) : R := sum (zip_with Rmult x y).

Definition row (X : list (list R)) (i : nat) : list R := X !!! i.

(** [np.cov(x, y)] with its defaults [bias=False], [ddof=None]: the
    normalisation is [N - 1], replaced by [0.0] when it is not positive. *)
Definition cov (X : list (list R)) (i j : nat) : float64 :=
  let N := length (row X 0) in
  let fact := (Z.of_nat N - 1)%Z in
  let fact := if (fact <=? 0)%Z then 0%R else IZR fact in
  let c := dot (center (row X i)) (center (row X j)) in
  multiply (Fin c) (true_divide (Fin 1) (Fin fact)).

(** [np.corrcoef(x, y)]: the covariance matrix divided by the standard
    deviations of its rows, then by those of its columns, then clipped.
    Stacking rows of different lengths raises [ValueError]. *)
Definition corrcoef (x y : list Q) : result (nat → nat → float64) :=
  if negb (length x =? length y) then Raise ValueError
  else
    let X := [Q2R <$> x; Q2R <$> y] in
    let c := cov X in
    let stddev i := sqrt (c i i) in
    let c i j := true_divide (c i j) (stddev i) in
    let c i j := true_divide (c i j) (stddev j) in
    Ret (λ i j, clip (c i j) (-1) 1).

End Np.

(** ** calculate_correlation *)

(** [l[i]] for a nonnegative index. *)
Definition getitem {A} (l : list A) (i : nat) : result A :=
  match l !! i with
  | Some x => Ret x
  | None => Raise IndexError
  end.

(** Python's float division. *)
Definition py_div (a b : Q) : result Q :=
  if Qeq_bool b 0 then Raise ZeroDivisionError else Ret (a / b)%Q.

(** [(prices[i] - prices[i-1]) / prices[i-1]] *)
Definition daily_return (prices : list Q) (i : nat) : result Q :=
  cur ← getitem prices i;
  prev ← getitem prices (i - 1);
  den ← getitem prices (i - 1);
  py_div (cur - prev)%Q den.

(** The body of the loop over [range(1, len(prices1))]; the state is the
    pair [(returns1, returns2)]. *)
Definition returns_body (prices1 prices2 : list Q)
    (st : list Q * list Q) (i : nat) : result (list Q * list Q) :=
  r1 ← daily_return prices1 i;
  r2 ← daily_return prices2 i;
  Ret (st.1 ++ [r1], st.2 ++ [r2]).

Definition calculate_correlation (prices1 prices2 : list Q) : result value :=
  if negb (length prices1 =? length prices2) || (length prices1 <? 2) then
    Ret (VInt 0)
  else
    rs ← for_each (returns_body prices1 prices2)
                  (seq 1 (length prices1 - 1)) ([], []);
    c ← Np.corrcoef rs.1 rs.2;
    Ret (VFloat (c 0 1)%nat).

(** ** The specification's Pearson correlation of simple returns *)

(** [r[i] = (price[i] - price[i-1]) / price[i-1]] for [i] in [[1, L)]. *)
Definition return_at (prices : list Q) (i : nat) : Q :=
  ((nth i prices 0 - nth (i - 1) prices 0) / nth (i - 1) prices 0)%Q.

Definition simple_returns (prices : list Q) : list Q :=
  return_at prices <$> seq 1 (length prices - 1).

(** The prices the loop divides by: every entry but the last. *)
Definition priors_nonzero (prices : list Q) : Prop :=
  ∀ i, (1 ≤ i < length prices)%nat → ¬ (nth (i - 1) prices 0 == 0)%Q.

Module Population.

Definition mean (x : list R) : R := (Np.sum x / INR (length x))%R.

Definition covariance (x y : list R) : R :=
  (Np.sum (zip_with (λ a b, (a - mean x) * (b - mean y)) x y)
   / INR (length x))%R.

Definition variance (x : list R) : R := covariance x x.

Definition std (x : list R) : R := R_sqrt.sqrt (variance x).

(** Covariance over the product of the standard deviations; undefined,
    hence [NaN], when a vector has zero variance. *)
Definition pearson (x y : list R) : float64 :=
  if Req_dec_T (variance x) 0 then NaN
  else if Req_dec_T (variance y) 0 then NaN
  else Fin (covariance x y / (std x * std y)).

End Population.

(** The sum of products of deviations from [mx] and [my]; both numpy's
    covariance and the population covariance are multiples of it. *)
Definition cdot (mx my : R) (x y : list R) : R :=
  Np.sum (zip_with (λ a b, (a - mx) * (b - my))%R x y).

(** ** Python dictionaries

    A [dict] keeps its keys in insertion order, and the pipeline iterates
    over them, so a dictionary is an association list: assigning to a key
    that is present replaces its value in place, a new key goes last. *)

Section Dict.
Context {K V : Type} `{EqDecision K}.

Fixpoint dict_get (d : list (K * V)) (k : K) : option V :=
  match d with
  | [] => None
  | (k', v) :: d' => if decide (k' = k) then Some v else dict_get d' k
  end.

Fixpoint dict_set (d : list (K * V)) (k : K) (v : V) : list (K * V) :=
  match d with
  | [] => [(k, v)]
  | (k', v') :: d' =>
      if decide (k' = k) then (k, v) :: d' else (k', v') :: dict_set d' k v
  end.

Definition dict_keys (d : list (K * V)) : list K := d.*1.
Definition dict_values (d : list (K * V)) : list V := d.*2.

(** [d[k]], which raises [KeyError] on a missing key. *)
Definition dict_getitem (d : list (K * V)) (k : K) : result V :=
  match dict_get d k with
  | Some v => Ret v
  | None => Raise KeyError
  end.
End Dict.

(** ** Configuration *)

Definition TOKENS : list (string * string) :=
  [("bitcoin", "BTC"); ("ethereum", "ETH"); ("nillion", "NIL");
   ("mind-network", "MIND")].

Record timeframe := { name : string; days : Z }.

Definition TIMEFRAMES : list timeframe :=
  [ {| name := "30d"; days := 30 |}; {| name := "90d"; days := 90 |} ].

(** ** Data *)

Record point := { timestamp : Z; price : Q }.

Record aligned_data := {
  dates : list string;
  prices : list (string * list Q)
}.

(** What [json.dump] is given, one shape per kind of file. *)
Inductive json :=
  | JRaw (price_data : list point)
  | JAligned (aligned : aligned_data)
  | JCorrelations (correlations : list (string * value)).

(** The file system is the sequence of [open(filename, 'w')] + [json.dump]
    events, oldest first. *)
Definition fs_log := list (string * json).

Definition raw_filename (coin_id timeframe_name : string) : string :=
  "data/correlation/" +:+ coin_id +:+ "_" +:+ timeframe_name +:+ ".json".

Definition aligned_filename (timeframe_name : string) : string :=
  "data/correlation/aligned_" +:+ timeframe_name +:+ ".json".

Definition correlation_filename (timeframe_name : string) : string :=
  "data/correlation/correlation_" +:+ timeframe_name +:+ ".json".

(** [str.lower] on ASCII text. *)
Definition ascii_lower (c : Ascii.ascii) : Ascii.ascii :=
  let n := Ascii.nat_of_ascii c in
  if (65 <=? n)%nat && (n <=? 90)%nat then Ascii.ascii_of_nat (n + 32) else c.

Fixpoint lower (s : string) : string :=
  match s with
  | EmptyString => EmptyString
  | String c s' => String (ascii_lower c) (lower s')
  end.

(** ** fetch_price_data *)

(** What the request inside the [try] block comes to: one of the two
    [except] clauses, or the list under [data['prices']]. *)
Inductive response :=
  | RequestException
  | UnexpectedException
  | Prices (prices : list (Z * Q)).

(** The day bucket: [timestamp // 86400000 * 86400000]. *)
Definition bucket (timestamp : Z) : Z := (timestamp `div` 86400000 * 86400000)%Z.

(** The [# Align timestamps] loops: every bucket of every series. *)
Definition collect_timestamps (token_data : list (string * list point))
  : gset Z :=
  foldl (λ timestamps data,
           foldl (λ timestamps point,
                    {[ bucket (timestamp point) ]} ∪ timestamps)
                 timestamps data)
        ∅ (dict_values token_data).

(** [sorted] on a set of integers. *)
Definition sorted (s : gset Z) : list Z := merge_sort Z.le (elements s).

(** The inner loop of [# Create price maps]: later points overwrite. *)
Definition build_price_map (data : list point) : gmap Z Q :=
  foldl (λ price_map point,
           <[ bucket (timestamp point) := price point ]> price_map)
        ∅ data.

Definition build_price_maps (token_data : list (string * list point))
  : list (string * gmap Z Q) :=
  foldl (λ price_maps '(coin_id, data),
           dict_set price_maps coin_id (build_price_map data))
        [] token_data.

(** [all(ts in price_maps.get(coin_id, {}) for coin_id in token_data.keys())] *)
Definition in_all_maps (price_maps : list (string * gmap Z Q))
    (keys : list string) (ts : Z) : bool :=
  forallb (λ coin_id,
             bool_decide (is_Some (default ∅ (dict_get price_maps coin_id) !! ts)))
          keys.

(** The [# Find common timestamps] loop. *)
Definition find_common_timestamps (price_maps : list (string * gmap Z Q))
    (keys : list string) (timestamps : list Z) : list Z :=
  foldl (λ common_timestamps ts,
           if in_all_maps price_maps keys ts then common_timestamps ++ [ts]
           else common_timestamps)
        [] timestamps.

(** The common timeline of the series handed to the alignment. *)
Definition common_timeline (token_data : list (string * list point)) : list Z :=
  find_common_timestamps (build_price_maps token_data) (dict_keys token_data)
    (sorted (collect_timestamps token_data)).

(** [aligned_data] before the arrays are filled: one empty list per key. *)
Definition empty_aligned (keys : list string) : aligned_data :=
  {| dates := [];
     prices := foldl (λ prices coin_id, dict_set prices coin_id []) [] keys |}.

Section Pipeline.

(** The network: what a request for [coin_id] over [days] comes to. *)
Variable api : string → Z → response.

(** [datetime.fromtimestamp(ts / 1000).strftime('%Y-%m-%d')]: the local
    calendar date of a millisecond timestamp.  It depends on the time
    zone of the machine and is total on the timestamps a price API sends. *)
Variable local_date : Z → string.

(** The console output and the 30 second sleep leave no trace in the
    results and are left out. *)
Definition fetch_price_data (coin_id : string) (days : Z) : list point :=
  match api coin_id days with
  | Prices prices =>
      (λ '(timestamp, price), {| timestamp := timestamp; price := price |})
        <$> prices
  | RequestException => []
  | UnexpectedException => []
  end.

(** The state of the fetch loop. *)
Record fetch_state := {
  token_data : list (string * list point);
  failed_tokens : list string;
  fetch_log : fs_log
}.

(** The body of [for coin_id in TOKENS.keys()]. *)
Definition fetch_body (tf : timeframe) (st : fetch_state) (coin_id : string)
  : fetch_state :=
  let price_data := fetch_price_data coin_id (days tf) in
  match price_data with
  | _ :: _ =>
      {| token_data := dict_set (token_data st) coin_id price_data;
         failed_tokens := failed_tokens st;
         fetch_log := fetch_log st
                      ++ [(raw_filename coin_id (name tf), JRaw price_data)] |}
  | [] =>
      {| token_data := token_data st;
         failed_tokens := failed_tokens st ++ [coin_id];
         fetch_log := fetch_log st |}
  end.

Definition fetch_tokens (tf : timeframe) (log : fs_log) : fetch_state :=
  foldl (fetch_body tf)
        {| token_data := []; failed_tokens := []; fetch_log := log |}
        (dict_keys TOKENS).

(** The body of the loop over [token_data.keys()] inside
    [# Create aligned data arrays]:
    [aligned_data['prices'][coin_id].append(price_maps[coin_id][ts])]. *)
Definition append_price (price_maps : list (string * gmap Z Q)) (ts : Z)
    (aligned : aligned_data) (coin_id : string) : result aligned_data :=
  column ← dict_getitem (prices aligned) coin_id;
  price_map ← dict_getitem price_maps coin_id;
  price ← match price_map !! ts with
          | Some p => Ret p
          | None => Raise KeyError
          end;
  Ret {| dates := dates aligned;
         prices := dict_set (prices aligned) coin_id (column ++ [price]) |}.

(** The body of [for ts in common_timestamps]. *)
Definition append_day (price_maps : list (string * gmap Z Q))
    (keys : list string) (aligned : aligned_data) (ts : Z)
  : result aligned_data :=
  let date := local_date ts in
  let aligned := {| dates := dates aligned ++ [date];
                    prices := prices aligned |} in
  for_each (append_price price_maps ts) keys aligned.

Definition fill_aligned (price_maps : list (string * gmap Z Q))
    (keys : list string) (common_timestamps : list Z)
  : result aligned_data :=
  for_each (append_day price_maps keys) common_timestamps
           (empty_aligned keys).

(** The body of the loop of [# Calculate correlations]. *)
Definition correlate_body (aligned : aligned_data) (nil_prices : list Q)
    (correlations : list (string * value)) (coin_id : string)
  : result (list (string * value)) :=
  if decide (coin_id ≠ "nillion") then
    token_prices ← dict_getitem (prices aligned) coin_id;
    correlation ← calculate_correlation nil_prices token_prices;
    symbol ← dict_getitem TOKENS coin_id;
    let token_symbol := lower symbol in
    Ret (dict_set correlations ("nil_" +:+ token_symbol) correlation)
  else Ret correlations.

(** [# Calculate correlations], guard included: the log after it and
    whether it raised. *)
Definition correlate_and_save (tf : timeframe) (keys : list string)
    (aligned : aligned_data) (log : fs_log) : fs_log * result () :=
  if bool_decide (is_Some (dict_get (prices aligned) "nillion"))
     && (1 <? length (dates aligned))%nat then
    match
      nil_prices ← dict_getitem (prices aligned) "nillion";
      for_each (correlate_body aligned nil_prices) keys []
    with
    | Ret correlations =>
        (log ++ [(correlation_filename (name tf), JCorrelations correlations)],
         Ret ())
    | Raise e => (log, Raise e)
    end
  else (log, Ret ()).

(** One window.  The result is the log of files written and either a
    normal return or the exception that left the function. *)
Definition save_data_for_timeframe (tf : timeframe) (log : fs_log)
  : fs_log * result () :=
  let st := fetch_tokens tf log in
  let token_data := token_data st in
  let log := fetch_log st in
  if (length token_data <? 2)%nat then (log, Ret ())
  else if bool_decide (dict_get token_data "nillion" = None) then (log, Ret ())
  else
    let timestamps := sorted (collect_timestamps token_data) in
    let price_maps := build_price_maps token_data in
    let keys := dict_keys token_data in
    let common_timestamps :=
      find_common_timestamps price_maps keys timestamps in
    match common_timestamps with
    | [] => (log, Ret ())
    | _ :: _ =>
        match fill_aligned price_maps keys common_timestamps with
        | Raise e => (log, Raise e)
        | Ret aligned =>
            let log := log ++ [(aligned_filename (name tf), JAligned aligned)] in
            correlate_and_save tf keys aligned log
        end
    end.

(** [main]: the windows in turn; an exception leaving one window leaves
    [main] too, nothing catches it. *)
Fixpoint run_timeframes (tfs : list timeframe) (log : fs_log)
  : fs_log * result () :=
  match tfs with
  | [] => (log, Ret ())
  | tf :: rest =>
      match save_data_for_timeframe tf log with
      | (log', Ret _) => run_timeframes rest log'
      | (log', Raise e) => (log', Raise e)
      end
  end.

Definition main (log : fs_log) : fs_log * result () :=
  run_timeframes TIMEFRAMES log.

End Pipeline.

(** ** What the loops compute, in closed form *)

(** The price of [coin_id] in bucket [ts] according to the price maps. *)
Definition price_on (price_maps : list (string * gmap Z Q))
    (coin_id : string) (ts : Z) : Q :=
  default 0%Q (dict_get price_maps coin_id ≫= λ price_map, price_map !! ts).

(** The aligned dataset the loops of [# Create aligned data arrays] build:
    one date per common bucket and, per asset, its price in each of them. *)
Definition aligned_of (local_date : Z → string)
    (token_data : list (string * list point)) : aligned_data :=
  let price_maps := build_price_maps token_data in
  let common_timestamps := common_timeline token_data in
  {| dates := local_date <$> common_timestamps;
     prices := (λ coin_id, (coin_id, price_on price_maps coin_id <$> common_timestamps))
                 <$> dict_keys token_data |}.

Definition nonempty {A} (l : list A) : bool :=
  match l with
  | [] => false
  | _ :: _ => true
  end.

Section FetchClosedForm.
Variable api : string → Z → response.
Variable tf : timeframe.

(** The assets whose fetch gave at least one point, in the order of
    [keys]; the others. *)
Definition succeeded (keys : list string) : list string :=
  filter (λ c, nonempty (fetch_price_data api c (days tf))) keys.

Definition failed (keys : list string) : list string :=
  filter (λ c, ¬ nonempty (fetch_price_data api c (days tf))) keys.

Definition fetched_data (keys : list string) : list (string * list point) :=
  (λ c, (c, fetch_price_data api c (days tf))) <$> succeeded keys.

Definition raw_writes (keys : list string) : fs_log :=
  (λ c, (raw_filename c (name tf), JRaw (fetch_price_data api c (days tf))))
    <$> succeeded keys.
End FetchClosedForm.

(** ** Scenarios

    Concrete inputs on which the statements below are exercised. *)

Definition pt (timestamp : Z) (price : Q) : point :=
  {| timestamp := timestamp; price := price |}.

(** Midnight UTC of the [n]-th day after the epoch, in milliseconds. *)
Definition day (n : Z) : Z := (n * 86400000)%Z.

(** Asset A trades on days 1, 2, 3 and asset B on days 2, 3, 4, at
    different times of the day. *)
Definition overlapping_series : list (string * list point) :=
  [("A", [pt (day 1 + 1000) 10; pt (day 2 + 2000) 11; pt (day 3 + 3000) 12]);
   ("B", [pt (day 2 + 500) 20; pt (day 3) 21; pt (day 4 + 86399999) 22])].

(** Only the request for bitcoin succeeds. *)
Definition api_bitcoin_only (coin_id : string) (days : Z) : response :=
  if decide (coin_id = "bitcoin") then Prices [(1700000000000%Z, 35000%Q)]
  else RequestException.

(** Bitcoin and nillion answer with one point each, on the same day; the
    request for ethereum fails and mind-network has no data. *)
Definition api_single_day (coin_id : string) (days : Z) : response :=
  if decide (coin_id = "bitcoin") then Prices [(1700000000000%Z, 35000%Q)]
  else if decide (coin_id = "nillion") then Prices [(1700003600000%Z, (1 # 2)%Q)]
  else if decide (coin_id = "ethereum") then RequestException
  else Prices [].

(** Bitcoin and nillion answer with two days each, and the first price of
    nillion is zero. *)
Definition api_zero_price (coin_id : string) (days : Z) : response :=
  if decide (coin_id = "bitcoin")
  then Prices [(day 19675, 35000%Q); (day 19676, 36000%Q)]
  else if decide (coin_id = "nillion")
  then Prices [(day 19675, 0%Q); (day 19676, (1 # 2)%Q)]
  else RequestException.

Definition window_30d : timeframe := {| name := "30d"; days := 30 |}.

Definition fixed_date (ts : Z) : string := "2023-11-14".

(** The files a window may write, in the order in which it writes them. *)
Definition window_files (tf : timeframe) : list string :=
  ((λ coin_id, raw_filename coin_id (name tf)) <$> dict_keys TOKENS)
  ++ [aligned_filename (name tf); correlation_filename (name tf)].

(** Bitcoin and nillion answer, on different days. *)
Definition api_disjoint_days (coin_id : string) (days : Z) : response :=
  if decide (coin_id = "bitcoin") then Prices [(day 19675, 35000%Q)]
  else if decide (coin_id = "nillion") then Prices [(day 19676, (1 # 2)%Q)]
  else RequestException.

(** Bitcoin, ethereum and nillion answer with the same three days. *)
Definition api_three_days (coin_id : string) (days : Z) : response :=
  if decide (coin_id = "bitcoin")
  then Prices [(day 19675, 35000%Q); (day 19676, 36000%Q); (day 19677, 35500%Q)]
  else if decide (coin_id = "ethereum")
  then Prices [(day 19675, 2000%Q); (day 19676, 2100%Q); (day 19677, 2050%Q)]
  else if decide (coin_id = "nillion")
  then Prices [(day 19675, (1 # 2)%Q); (day 19676, (3 # 5)%Q); (day 19677, (1 # 2)%Q)]
  else RequestException.

(** The key of an asset in the correlation mapping: ["nil_"] and the
    asset's symbol in lower case. *)
Definition correlation_key (coin_id : string) : string :=
  "nil_" +:+ lower (default "" (dict_get TOKENS coin_id)).

(** Bitcoin and nillion answer with the same two days, no price zero. *)
Definition api_two_days (coin_id : string) (days : Z) : response :=
  if decide (coin_id = "bitcoin")
  then Prices [(day 19675, 35000%Q); (day 19676, 36000%Q)]
  else if decide (coin_id = "nillion")
  then Prices [(day 19675, (1 # 2)%Q); (day 19676, (3 # 5)%Q)]
  else RequestException.

(** * Proofs *)

(** ** The exception monad and Python primitives *)

Lemma getitem_nth {A} (l : list A) (i : nat) (d : A) :
  (i < length l)%nat → getitem l i = Ret (nth i l d).
Proof.
  intros Hi. unfold getitem.
  destruct (lookup_lt_is_Some_2 l i Hi) as [x Hx]. rewrite Hx.
  f_equal. symmetry. by apply nth_lookup_Some with (d := d) in Hx.
Qed.

Lemma py_div_nonzero (a b : Q) : ¬ (b == 0)%Q → py_div a b = Ret (a / b)%Q.
Proof.
  intros Hb. unfold py_div.
  destruct (Qeq_bool b 0) eqn:E; [|done].
  apply Qeq_bool_iff in E. contradiction.
Qed.

Lemma py_div_zero (a b : Q) : (b == 0)%Q → py_div a b = Raise ZeroDivisionError.
Proof.
  intros Hb. unfold py_div. apply Qeq_bool_iff in Hb. by rewrite Hb.
Qed.

Lemma daily_return_nonzero (p : list Q) (i : nat) :
  (i < length p)%nat → ¬ (nth (i - 1) p 0 == 0)%Q →
  daily_return p i = Ret (return_at p i).
Proof.
  intros Hi Hnz. unfold daily_return.
  rewrite (getitem_nth p i 0%Q) by lia.
  rewrite (getitem_nth p (i - 1) 0%Q) by lia. cbn.
  by apply py_div_nonzero.
Qed.

Lemma daily_return_zero (p : list Q) (i : nat) :
  (i < length p)%nat → (nth (i - 1) p 0 == 0)%Q →
  daily_return p i = Raise ZeroDivisionError.
Proof.
  intros Hi Hz. unfold daily_return.
  rewrite (getitem_nth p i 0%Q) by lia.
  rewrite (getitem_nth p (i - 1) 0%Q) by lia. cbn.
  by apply py_div_zero.
Qed.

(** Either a day's return is computed or the division by a zero price
    raises; nothing else can happen inside the bounds. *)
Lemma daily_return_cases (p : list Q) (i : nat) :
  (i < length p)%nat →
  (¬ (nth (i - 1) p 0 == 0)%Q ∧ daily_return p i = Ret (return_at p i))
  ∨ ((nth (i - 1) p 0 == 0)%Q ∧ daily_return p i = Raise ZeroDivisionError).
Proof.
  intros Hi. destruct (Qeq_dec (nth (i - 1) p 0%Q) 0%Q) as [Hz|Hnz].
  - right. split; [done|]. by apply daily_return_zero.
  - left. split; [done|]. by apply daily_return_nonzero.
Qed.

Lemma returns_body_eq (p1 p2 : list Q) (st : list Q * list Q) (i : nat) :
  returns_body p1 p2 st i
  = (r1 ← daily_return p1 i; r2 ← daily_return p2 i;
     Ret (st.1 ++ [r1], st.2 ++ [r2])).
Proof. reflexivity. Qed.

Lemma returns_loop_ok (p1 p2 : list Q) (n k : nat) (acc : list Q * list Q) :
  length p1 = length p2 → (k + n ≤ length p1)%nat →
  (∀ i, (k ≤ i < k + n)%nat →
        ¬ (nth (i - 1) p1 0 == 0)%Q ∧ ¬ (nth (i - 1) p2 0 == 0)%Q) →
  for_each (returns_body p1 p2) (seq k n) acc
  = Ret (acc.1 ++ (return_at p1 <$> seq k n),
         acc.2 ++ (return_at p2 <$> seq k n)).
Proof.
  intros Hlen. revert k acc.
  induction n as [|n IH]; intros k acc Hk Hnz.
  - cbn. rewrite !app_nil_r. by destruct acc.
  - cbn [seq for_each]. rewrite returns_body_eq.
    destruct (Hnz k ltac:(lia)) as [H1 H2].
    rewrite daily_return_nonzero by (done || lia). cbn.
    rewrite daily_return_nonzero by (done || lia). cbn.
    rewrite IH by (try lia; intros; apply Hnz; lia).
    cbn. by rewrite <- !app_assoc.
Qed.

Lemma returns_loop_raises (p1 p2 : list Q) (n k : nat) (acc : list Q * list Q) :
  length p1 = length p2 → (k + n ≤ length p1)%nat →
  (∃ i, (k ≤ i < k + n)%nat ∧
        ((nth (i - 1) p1 0 == 0)%Q ∨ (nth (i - 1) p2 0 == 0)%Q)) →
  for_each (returns_body p1 p2) (seq k n) acc = Raise ZeroDivisionError.
Proof.
  intros Hlen. revert k acc.
  induction n as [|n IH]; intros k acc Hk (i & Hi & Hz); [lia|].
  cbn [seq for_each]. rewrite returns_body_eq.
  destruct (daily_return_cases p1 k ltac:(lia)) as [[N1 ->]|[Z1 ->]]; [|done].
  destruct (daily_return_cases p2 k ltac:(lia)) as [[N2 ->]|[Z2 ->]]; [|done].
  cbn. apply IH; [lia|]. exists i. split; [|done].
  destruct (decide (i = k)) as [->|]; [tauto|lia].
Qed.

Lemma simple_returns_length (p : list Q) :
  length (simple_returns p) = (length p - 1)%nat.
Proof. unfold simple_returns. by rewrite length_fmap, length_seq. Qed.

Lemma guard_false (p1 p2 : list Q) :
  length p1 = length p2 → (2 ≤ length p1)%nat →
  negb (length p1 =? length p2) || (length p1 <? 2) = false.
Proof.
  intros -> H. rewrite Nat.eqb_refl.
  destruct (Nat.ltb_spec (length p2) 2); [lia|done].
Qed.

(** ** Sums of products of deviations *)

Section Deviations.
Local Open Scope R_scope.

Lemma dot_center_gen (mx my : R) (x y : list R) :
  Np.sum (zip_with Rmult ((λ v, v - mx) <$> x) ((λ v, v - my) <$> y))
  = cdot mx my x y.
Proof.
  unfold cdot, Np.sum. revert y.
  induction x as [|a x IH]; intros [|b y]; cbn; try done.
  by rewrite IH.
Qed.

Lemma dot_center (x y : list R) :
  Np.dot (Np.center x) (Np.center y)
  = cdot (Np.average x) (Np.average y) x y.
Proof. apply dot_center_gen. Qed.

Lemma covariance_cdot (x y : list R) :
  Population.covariance x y
  = cdot (Np.average x) (Np.average y) x y / INR (length x).
Proof. reflexivity. Qed.


Lemma cdot_self_nonneg (m : R) (x : list R) : 0 <= cdot m m x x.
Proof.
  unfold cdot, Np.sum. induction x as [|a x IH]; cbn; [lra|].
  pose proof (Rle_0_sqr (a - m)) as Hsq. unfold Rsqr in Hsq. lra.
Qed.

(** Cauchy-Schwarz for the deviations, by induction on the vectors. *)
Lemma cdot_cauchy_schwarz (mx my : R) (x y : list R) :
  cdot mx my x y * cdot mx my x y <= cdot mx mx x x * cdot my my y y.
Proof.
  revert y. induction x as [|a x IH]; intros [|b y].
  - unfold cdot, Np.sum; cbn; lra.
  - unfold cdot at 1 2 3; unfold Np.sum; cbn. lra.
  - unfold cdot at 1 2 4; unfold Np.sum; cbn. lra.
  - specialize (IH y).
    pose proof (cdot_self_nonneg mx x) as HA.
    pose proof (cdot_self_nonneg my y) as HB.
    unfold cdot, Np.sum in *. cbn.
    set (S := foldr Rplus 0 (zip_with _ x y)) in *.
    set (A := foldr Rplus 0 (zip_with _ x x)) in *.
    set (B := foldr Rplus 0 (zip_with _ y y)) in *.
    set (u := a - mx). set (v := b - my).
    assert (Hmix : 2 * (u * v * S) <= A * (v * v) + B * (u * u)).
    { destruct (Rle_dec (2 * (u * v * S)) (A * (v * v) + B * (u * u)))
        as [|Hgt]; [done|].
      apply Rnot_le_lt in Hgt.
      assert (0 <= A * (v * v) + B * (u * u)) by nra.
      assert (Hsq : (A * (v * v) + B * (u * u)) * (A * (v * v) + B * (u * u))
                    < (2 * (u * v * S)) * (2 * (u * v * S))) by nra.
      pose proof (Rle_0_sqr (A * (v * v) - B * (u * u))) as Hd.
      pose proof (Rle_0_sqr (u * v)) as Huv. unfold Rsqr in Hd, Huv.
      assert ((u * v) * (u * v) * (S * S) <= (u * v) * (u * v) * (A * B))
        by (apply Rmult_le_compat_l; lra).
      nra. }
    nra.
Qed.

Lemma cdot_zero_l (mx my : R) (x y : list R) :
  cdot mx mx x x = 0 → cdot mx my x y = 0.
Proof.
  intros H0. pose proof (cdot_cauchy_schwarz mx my x y) as H.
  rewrite H0 in H. nra.
Qed.

Lemma cdot_zero_r (mx my : R) (x y : list R) :
  cdot my my y y = 0 → cdot mx my x y = 0.
Proof.
  intros H0. pose proof (cdot_cauchy_schwarz mx my x y) as H.
  rewrite H0 in H. nra.
Qed.

(** A vector of at most one entry has no deviation from its mean. *)
Lemma cdot_short (my : R) (x y : list R) :
  (length x ≤ 1)%nat → cdot (Np.average x) my x y = 0.
Proof.
  destruct x as [|a [|a' x]]; cbn [length]; intros Hn; [| |lia].
  - by destruct y.
  - destruct y as [|b y]; [done|].
    unfold cdot, Np.average, Np.sum. cbn. field.
Qed.

Lemma sqrt_scale (a k : R) :
  0 <= a → 0 < k → sqrt (a * (1 / k)) = sqrt a / sqrt k.
Proof.
  intros Ha Hk. replace (a * (1 / k)) with (a / k) by (field; lra).
  by apply sqrt_div.
Qed.

(** The normalisation cancels: dividing the covariance by [k] and each
    variance by [k] leaves the quotient unchanged. *)
Lemma quotient_scale (c a b k : R) :
  0 < a → 0 < b → 0 < k →
  c * (1 / k) / sqrt (a * (1 / k)) / sqrt (b * (1 / k))
  = c / (sqrt a * sqrt b).
Proof.
  intros Ha Hb Hk.
  rewrite !sqrt_scale by lra.
  pose proof (sqrt_lt_R0 a Ha). pose proof (sqrt_lt_R0 b Hb).
  pose proof (sqrt_lt_R0 k Hk).
  pose proof (sqrt_sqrt k ltac:(lra)) as Hkk.
  set (sk := sqrt k) in *. rewrite <- Hkk.
  field. lra.
Qed.

Lemma quotient_bounded (c a b : R) :
  0 < a → 0 < b → c * c <= a * b →
  -1 <= c / (sqrt a * sqrt b) <= 1.
Proof.
  intros Ha Hb Hc.
  pose proof (sqrt_lt_R0 a Ha) as Hsa. pose proof (sqrt_lt_R0 b Hb) as Hsb.
  pose proof (sqrt_sqrt a ltac:(lra)) as Haa.
  pose proof (sqrt_sqrt b ltac:(lra)) as Hbb.
  set (sa := sqrt a) in *. set (sb := sqrt b) in *.
  assert (Hpos : 0 < sa * sb) by nra.
  assert (Hle : c * c <= (sa * sb) * (sa * sb)) by nra.
  assert (-(sa * sb) <= c <= sa * sb) by nra.
  split.
  - apply Rmult_le_reg_r with (sa * sb); [done|].
    unfold Rdiv. rewrite Rmult_assoc, Rinv_l by lra. lra.
  - apply Rmult_le_reg_r with (sa * sb); [done|].
    unfold Rdiv. rewrite Rmult_assoc, Rinv_l by lra. lra.
Qed.

End Deviations.

(** ** numpy's correlation matrix against the population formula *)

Section Corrcoef.
Local Open Scope R_scope.

Lemma true_divide_fin (a b : R) :
  b ≠ 0 → Np.true_divide (Fin a) (Fin b) = Fin (a / b).
Proof. intros Hb. cbn. by destruct (Req_dec_T b 0). Qed.

Lemma true_divide_zero_zero : Np.true_divide (Fin 0) (Fin 0) = NaN.
Proof.
  cbn. destruct (Req_dec_T 0 0) as [_|Hne]; [|done].
  by destruct (Req_dec_T 0 0).
Qed.

Lemma true_divide_one_zero : Np.true_divide (Fin 1) (Fin 0) = PInf.
Proof.
  cbn. destruct (Req_dec_T 0 0) as [_|Hne]; [|done].
  destruct (Req_dec_T 1 0) as [H10|_]; [lra|].
  destruct (Rlt_dec 0 1) as [_|Hn]; [done|lra].
Qed.

Lemma multiply_zero_inf : Np.multiply (Fin 0) PInf = NaN.
Proof. cbn. by destruct (Req_dec_T 0 0). Qed.

Lemma sqrt_fin (a : R) : 0 <= a → Np.sqrt (Fin a) = Fin (sqrt a).
Proof. intros Ha. cbn. destruct (Rlt_dec a 0); [lra|done]. Qed.

Lemma clip_inside (a : R) : -1 <= a <= 1 → Np.clip (Fin a) (-1) 1 = Fin a.
Proof.
  intros [Hlo Hhi]. cbn. f_equal.
  rewrite Rmax_left by lra. by rewrite Rmin_left by lra.
Qed.

Lemma quotient_scale_pop (c a b k : R) :
  0 < a → 0 < b → 0 < k →
  c / k / (sqrt (a / k) * sqrt (b / k)) = c / (sqrt a * sqrt b).
Proof.
  intros Ha Hb Hk.
  rewrite <- (quotient_scale c a b k) by done.
  replace (a / k) with (a * (1 / k)) by (field; lra).
  replace (b / k) with (b * (1 / k)) by (field; lra).
  assert (0 < sqrt (a * (1 / k))).
  { apply sqrt_lt_R0. apply Rmult_lt_0_compat; [done|].
    apply Rdiv_lt_0_compat; lra. }
  assert (0 < sqrt (b * (1 / k))).
  { apply sqrt_lt_R0. apply Rmult_lt_0_compat; [done|].
    apply Rdiv_lt_0_compat; lra. }
  field. lra.
Qed.

Lemma variance_zero_iff (u : list R) :
  Population.variance u = 0
  ↔ cdot (Np.average u) (Np.average u) u u = 0 ∨ u = [].
Proof.
  unfold Population.variance. rewrite covariance_cdot.
  destruct u as [|a u]; [cbn; split; [by right|intros _; unfold cdot; cbn; lra]|].
  assert (0 < INR (length (a :: u))) by (apply lt_0_INR; cbn; lia).
  split.
  - intros H0. left.
    apply Rmult_eq_compat_r with (r := INR (length (a :: u))) in H0.
    unfold Rdiv in H0. rewrite Rmult_assoc, Rinv_l in H0 by lra. lra.
  - intros [H0|?]; [|done]. rewrite H0. unfold Rdiv. ring.
Qed.

Variables x y : list R.
Hypothesis Hlen : length x = length y.

Let A := cdot (Np.average x) (Np.average x) x x.
Let B := cdot (Np.average y) (Np.average y) y y.
Let C := cdot (Np.average x) (Np.average y) x y.

(** Fewer than two observations: numpy's normalisation is [0.0] and every
    entry of the covariance matrix is [0 * inf]. *)
Lemma cov_degenerate (i j : nat) :
  (length x ≤ 1)%nat → (i < 2)%nat → Np.cov [x; y] i j = NaN.
Proof using Hlen.
  intros Hn Hi. unfold Np.cov. cbv zeta.
  change (Np.row [x; y] 0) with x.
  destruct (Z.leb_spec (Z.of_nat (length x) - 1) 0) as [_|Hgt]; [|lia].
  rewrite dot_center. rewrite true_divide_one_zero.
  destruct i as [|[|i]]; [| |lia].
  - change (Np.row [x; y] 0) with x.
    rewrite cdot_short by done. apply multiply_zero_inf.
  - change (Np.row [x; y] 1) with y.
    rewrite cdot_short by lia. apply multiply_zero_inf.
Qed.

Let k := IZR (Z.of_nat (length x) - 1).

Lemma cov_regular (u v : list R) (i j : nat) :
  (2 ≤ length x)%nat → Np.row [x; y] i = u → Np.row [x; y] j = v →
  Np.cov [x; y] i j
  = Fin (cdot (Np.average u) (Np.average v) u v * (1 / k)).
Proof using Hlen.
  intros Hn Hu Hv. unfold Np.cov. cbv zeta. rewrite Hu, Hv.
  change (Np.row [x; y] 0) with x.
  destruct (Z.leb_spec (Z.of_nat (length x) - 1) 0) as [Hle|Hgt]; [lia|].
  rewrite dot_center.
  rewrite true_divide_fin; [done|].
  apply not_0_IZR. lia.
Qed.

(** Entry [[0, 1]] of numpy's correlation matrix is the population
    Pearson coefficient, [NaN] included. *)
Lemma corrcoef_entry_pearson :
  let c := Np.cov [x; y] in
  let stddev i := Np.sqrt (c i i) in
  Np.clip (Np.true_divide (Np.true_divide (c 0 1) (stddev 0))%nat
                          (stddev 1%nat)) (-1) 1
  = Population.pearson x y.
Proof using Hlen.
  cbv zeta. unfold Population.pearson.
  destruct (le_lt_dec (length x) 1) as [Hshort|Hlong].
  { rewrite !cov_degenerate by lia. cbn.
    destruct (Req_dec_T (Population.variance x) 0) as [_|Hne]; [done|].
    exfalso. apply Hne. apply variance_zero_iff. left.
    by apply cdot_short. }
  rewrite (cov_regular x y 0 1), (cov_regular x x 0 0), (cov_regular y y 1 1)
    by (done || lia).
  fold A B C.
  assert (Hk : 0 < k) by (apply IZR_lt; lia).
  assert (Hn : 0 < INR (length x)) by (apply lt_0_INR; lia).
  pose proof (cdot_self_nonneg (Np.average x) x) as HA. fold A in HA.
  pose proof (cdot_self_nonneg (Np.average y) y) as HB. fold B in HB.
  assert (0 < 1 / k) by (apply Rdiv_lt_0_compat; lra).
  rewrite !sqrt_fin by nra.
  destruct (Req_dec_T (Population.variance x) 0) as [Vx|Vx].
  { apply variance_zero_iff in Vx. destruct Vx as [Vx| ->]; [|cbn in Hlong; lia].
    fold A in Vx. assert (C = 0) as -> by (by apply cdot_zero_l).
    rewrite Vx, !Rmult_0_l, sqrt_0. by rewrite true_divide_zero_zero. }
  assert (0 < A).
  { destruct (Req_dec_T A 0) as [A0|]; [|lra].
    exfalso. apply Vx. apply variance_zero_iff. by left. }
  assert (0 < sqrt (A * (1 / k))) by (apply sqrt_lt_R0; nra).
  rewrite true_divide_fin by lra.
  destruct (Req_dec_T (Population.variance y) 0) as [Vy|Vy].
  { apply variance_zero_iff in Vy.
    destruct Vy as [Vy| ->]; [|cbn in Hlen; lia].
    fold B in Vy. assert (C = 0) as -> by (by apply cdot_zero_r).
    rewrite Vy, !Rmult_0_l, sqrt_0.
    replace (0 / sqrt (A * (1 / k))) with 0 by (unfold Rdiv; ring).
    by rewrite true_divide_zero_zero. }
  assert (0 < B).
  { destruct (Req_dec_T B 0) as [B0|]; [|lra].
    exfalso. apply Vy. apply variance_zero_iff. by left. }
  assert (0 < sqrt (B * (1 / k))) by (apply sqrt_lt_R0; nra).
  rewrite true_divide_fin by lra.
  rewrite quotient_scale by done.
  rewrite clip_inside
    by (apply quotient_bounded; [done..|apply cdot_cauchy_schwarz]).
  f_equal. unfold Population.std, Population.variance.
  rewrite !covariance_cdot. fold A B C. rewrite <- Hlen.
  by rewrite quotient_scale_pop.
Qed.

Lemma pearson_bounded :
  Population.variance x ≠ 0 → Population.variance y ≠ 0 →
  ∃ r, Population.pearson x y = Fin r ∧ -1 <= r <= 1.
Proof using Hlen.
  intros Vx Vy. unfold Population.pearson.
  destruct (Req_dec_T (Population.variance x) 0); [done|].
  destruct (Req_dec_T (Population.variance y) 0); [done|].
  eexists. split; [done|].
  assert (x ≠ []) by (intros ->; apply Vx; by apply variance_zero_iff; right).
  assert (0 < INR (length x)).
  { apply lt_0_INR. destruct x; [done|cbn; lia]. }
  pose proof (cdot_self_nonneg (Np.average x) x) as HA. fold A in HA.
  pose proof (cdot_self_nonneg (Np.average y) y) as HB. fold B in HB.
  assert (0 < A).
  { destruct (Req_dec_T A 0) as [A0|]; [|lra].
    exfalso. apply Vx. apply variance_zero_iff. by left. }
  assert (0 < B).
  { destruct (Req_dec_T B 0) as [B0|]; [|lra].
    exfalso. apply Vy. apply variance_zero_iff. by left. }
  unfold Population.std, Population.variance.
  rewrite !covariance_cdot. fold A B C. rewrite <- Hlen.
  rewrite quotient_scale_pop by done.
  apply quotient_bounded; [done..|apply cdot_cauchy_schwarz].
Qed.

End Corrcoef.

(** ** calculate_correlation on its three kinds of input *)

Lemma nonzero_priors (p : list Q) :
  Forall (λ v, ¬ (v == 0)%Q) p → priors_nonzero p.
Proof.
  intros Hall i Hi.
  destruct (lookup_lt_is_Some_2 p (i - 1)) as [v Hv]; [lia|].
  rewrite (nth_lookup_Some _ _ 0%Q _ Hv).
  by apply (Forall_lookup_1 _ _ _ _ Hall Hv).
Qed.

Lemma returns_loop_full (p1 p2 : list Q) :
  length p1 = length p2 → (1 ≤ length p1)%nat →
  priors_nonzero p1 → priors_nonzero p2 →
  for_each (returns_body p1 p2) (seq 1 (length p1 - 1)) ([], [])
  = Ret (simple_returns p1, simple_returns p2).
Proof.
  intros Hlen Hpos H1 H2.
  rewrite returns_loop_ok; [|done|lia|].
  - unfold simple_returns. by rewrite <- Hlen.
  - intros i Hi. split; [apply H1|apply H2]; lia.
Qed.

(** With nonzero priors the function returns numpy's coefficient, which is
    the population Pearson coefficient of the two return vectors. *)
Lemma calculate_correlation_value (p1 p2 : list Q) :
  length p1 = length p2 → (2 ≤ length p1)%nat →
  priors_nonzero p1 → priors_nonzero p2 →
  calculate_correlation p1 p2
  = Ret (VFloat (Population.pearson (Q2R <$> simple_returns p1)
                                    (Q2R <$> simple_returns p2))).
Proof.
  intros Hlen Hge H1 H2. unfold calculate_correlation.
  rewrite guard_false by done.
  rewrite returns_loop_full by (done || lia).
  change (Ret ?a ≫= ?k) with (k a). cbv beta.
  change ((simple_returns p1, simple_returns p2).1) with (simple_returns p1).
  change ((simple_returns p1, simple_returns p2).2) with (simple_returns p2).
  unfold Np.corrcoef.
  rewrite !simple_returns_length, <- Hlen, Nat.eqb_refl.
  change (negb true) with false. cbv iota zeta.
  change (Ret ?a ≫= ?k) with (k a). cbv beta.
  do 2 f_equal. apply corrcoef_entry_pearson.
  by rewrite !length_fmap, !simple_returns_length, Hlen.
Qed.

Lemma calculate_correlation_raises (p1 p2 : list Q) :
  length p1 = length p2 → (2 ≤ length p1)%nat →
  (∃ i, (1 ≤ i < length p1)%nat ∧
        ((nth (i - 1) p1 0 == 0)%Q ∨ (nth (i - 1) p2 0 == 0)%Q)) →
  calculate_correlation p1 p2 = Raise ZeroDivisionError.
Proof.
  intros Hlen Hge (i & Hi & Hz). unfold calculate_correlation.
  rewrite guard_false by done.
  rewrite returns_loop_raises; [done|done|lia|].
  exists i. split; [lia|done].
Qed.

Section PearsonFacts.
Local Open Scope R_scope.



Lemma pearson_self (x : list R) :
  Population.variance x ≠ 0 → Population.pearson x x = Fin 1.
Proof.
  intros Hv. unfold Population.pearson.
  destruct (Req_dec_T (Population.variance x) 0); [done|].
  f_equal. unfold Population.std. fold (Population.variance x).
  assert (0 <= Population.variance x).
  { unfold Population.variance. rewrite covariance_cdot.
    pose proof (cdot_self_nonneg (Np.average x) x).
    pose proof (pos_INR (length x)).
    destruct (Req_dec_T (INR (length x)) 0) as [->|].
    - unfold Rdiv. rewrite Rinv_0, Rmult_0_r. lra.
    - apply Rmult_le_pos; [done|]. left. apply Rinv_0_lt_compat. lra. }
  rewrite sqrt_sqrt by done. by apply Rdiv_diag.
Qed.

Lemma pearson_undefined (x y : list R) :
  Population.variance x = 0 ∨ Population.variance y = 0 →
  Population.pearson x y = NaN.
Proof.
  intros Hv. unfold Population.pearson.
  destruct (Req_dec_T (Population.variance x) 0); [done|].
  destruct (Req_dec_T (Population.variance y) 0); [done|].
  by destruct Hv.
Qed.

End PearsonFacts.

(** ** The correlation engine: what the specification states *)

Ltac q_nonzero :=
  repeat constructor;
  let H := fresh in intros H; vm_compute in H; discriminate H.

Ltac eval_returns :=
  repeat match goal with
  | |- context [simple_returns ?p] =>
      let l := eval vm_compute in (simple_returns p) in
      change (simple_returns p) with l
  end.

(** Evaluates the population variance of the returns of a literal price
    vector, down to a comparison of rational constants. *)
Ltac eval_variance :=
  eval_returns;
  unfold Population.variance, Population.covariance, Population.mean, Np.sum;
  cbn; unfold Q2R; cbn; lra.



(** C3: when the two lengths differ, or the common length is below 2,
    [calculate_correlation] returns the sentinel [0]; it does not raise. *)
Theorem calculate_correlation_sentinel (prices1 prices2 : list Q) :
  length prices1 ≠ length prices2 ∨ (length prices1 < 2)%nat →
  calculate_correlation prices1 prices2 = Ret (VInt 0).
Proof.
  intros Hguard. unfold calculate_correlation.
  destruct (Nat.eqb_spec (length prices1) (length prices2)) as [Heq|Hne];
    [|done].
  destruct (Nat.ltb_spec (length prices1) 2) as [Hlt|Hge]; [done|].
  destruct Hguard; [done|lia].
Qed.

Lemma calculate_correlation_sentinel_witness :
  calculate_correlation [1; 2; 3]%Q [1; 2]%Q = Ret (VInt 0)
  ∧ calculate_correlation [5]%Q [7]%Q = Ret (VInt 0).
Proof.
  split.
  - apply calculate_correlation_sentinel. left. cbn. lia.
  - apply calculate_correlation_sentinel. right. cbn. lia.
Defined.







(** ** Dictionaries *)

Section DictFacts.
Context {K V : Type} `{EqDecision K}.
Implicit Types (d : list (K * V)) (k : K) (v : V).

Lemma dict_get_None d k : dict_get d k = None ↔ k ∉ dict_keys d.
Proof.
  unfold dict_keys. induction d as [|[k' v'] d IH]; cbn.
  - split; [intros _; apply not_elem_of_nil|done].
  - rewrite not_elem_of_cons. case_decide as Hk.
    + split; [done|]. intros [Hne _]. by destruct Hne.
    + rewrite IH. split; [|by intros [_ ?]].
      intros Hnotin. split; [by intros ->|done].
Qed.

Lemma dict_get_Some_elem d k v : dict_get d k = Some v → (k, v) ∈ d.
Proof.
  induction d as [|[k' v'] d IH]; cbn; [done|].
  case_decide; intros Hg.
  - simplify_eq. left.
  - right. by apply IH.
Qed.

Lemma dict_get_elem d k v :
  NoDup (dict_keys d) → (k, v) ∈ d → dict_get d k = Some v.
Proof.
  unfold dict_keys. induction d as [|[k' v'] d IH]; cbn.
  - intros _ Hin. by apply elem_of_nil in Hin.
  - intros [Hnotin Hnd]%NoDup_cons Hin. apply elem_of_cons in Hin.
    destruct Hin as [Heq|Hin]; [simplify_eq; by rewrite decide_True|].
    rewrite decide_False; [by apply IH|].
    intros ->. apply Hnotin. apply list_elem_of_fmap. by exists (k, v).
Qed.

Lemma dict_get_is_Some d k : is_Some (dict_get d k) ↔ k ∈ dict_keys d.
Proof.
  rewrite <- not_eq_None_Some, dict_get_None.
  split; [apply dec_stable|auto].
Qed.

Lemma dict_set_new d k v : k ∉ dict_keys d → dict_set d k v = d ++ [(k, v)].
Proof.
  unfold dict_keys. induction d as [|[k' v'] d IH]; cbn; [done|].
  rewrite not_elem_of_cons. intros [Hne Hnotin].
  rewrite decide_False by done. by rewrite IH.
Qed.

(** Assignment to a key that is present changes its value in place. *)
Lemma dict_set_old d k v :
  NoDup (dict_keys d) → k ∈ dict_keys d →
  dict_set d k v = (λ e, (e.1, if decide (e.1 = k) then v else e.2)) <$> d.
Proof.
  unfold dict_keys. induction d as [|[k' v'] d IH]; cbn.
  - intros _ Hin. by apply elem_of_nil in Hin.
  - intros [Hnotin Hnd]%NoDup_cons Hin. case_decide as Hk.
    + subst k'. f_equal. clear IH Hin.
      induction d as [|[k'' v''] d IH]; cbn; [done|].
      cbn in Hnotin. rewrite not_elem_of_cons in Hnotin.
      destruct Hnotin as [Hne Hnotin].
      rewrite decide_False by done. f_equal. apply IH; [done|].
      by apply NoDup_cons in Hnd as [_ ?].
    + f_equal. apply IH; [done|].
      apply elem_of_cons in Hin as [?|?]; [congruence|done].
Qed.
End DictFacts.

(** ** Bucketing *)

Lemma bucket_floor (ts : Z) : bucket ts = (ts - ts `mod` 86400000)%Z.
Proof. unfold bucket. pose proof (Z.div_mod ts 86400000). lia. Qed.

Lemma build_price_map_snoc (data : list point) (pt : point) :
  build_price_map (data ++ [pt])
  = <[bucket (timestamp pt) := price pt]> (build_price_map data).
Proof. unfold build_price_map. by rewrite foldl_snoc. Qed.

(** Last write wins: the price of a bucket is that of the last point of
    the series falling into it. *)
Lemma build_price_map_lookup (data : list point) (b : Z) :
  build_price_map data !! b
  = price <$> last (filter (λ pt, bucket (timestamp pt) = b) data).
Proof.
  induction data as [|pt data IH] using rev_ind; [done|].
  rewrite build_price_map_snoc, filter_app, filter_cons, filter_nil.
  case_decide as Hb.
  - rewrite Hb, lookup_insert_eq. by rewrite last_snoc.
  - rewrite lookup_insert_ne by done. by rewrite app_nil_r.
Qed.

Lemma build_price_map_dom (data : list point) (b : Z) :
  is_Some (build_price_map data !! b)
  ↔ ∃ pt, pt ∈ data ∧ bucket (timestamp pt) = b.
Proof.
  induction data as [|pt data IH] using rev_ind.
  - cbn. split; [by intros [? ?]|]. intros (pt & Hin & _).
    by apply elem_of_nil in Hin.
  - rewrite build_price_map_snoc. destruct (decide (bucket (timestamp pt) = b)) as [Hb|Hb].
    + rewrite Hb, lookup_insert_eq. split; [|by eauto].
      intros _. exists pt. split; [|done]. apply elem_of_app. right. left.
    + rewrite lookup_insert_ne, IH by done. split.
      * intros (pt' & Hin & Hb'). exists pt'. split; [|done].
        apply elem_of_app. by left.
      * intros (pt' & Hin & Hb'). exists pt'. split; [|done].
        apply elem_of_app in Hin as [Hin|Hin]; [done|].
        apply list_elem_of_singleton in Hin. congruence.
Qed.

(** ** The candidate timeline *)

Lemma collect_inner (s : gset Z) (data : list point) (ts : Z) :
  ts ∈ foldl (λ timestamps point, {[ bucket (timestamp point) ]} ∪ timestamps)
             s data
  ↔ ts ∈ s ∨ ∃ pt, pt ∈ data ∧ bucket (timestamp pt) = ts.
Proof.
  revert s. induction data as [|pt data IH]; intros s; cbn.
  - split; [by left|]. intros [?|(pt & Hin & _)]; [done|].
    by apply elem_of_nil in Hin.
  - rewrite IH, elem_of_union, elem_of_singleton. split.
    + intros [[->|?]|(pt' & Hin & Hb)].
      * right. exists pt. split; [left|done].
      * by left.
      * right. exists pt'. split; [by right|done].
    + intros [?|(pt' & Hin & Hb)]; [left; by right|].
      apply elem_of_cons in Hin as [->|Hin]; [left; left; done|].
      right. by exists pt'.
Qed.

Lemma collect_timestamps_elem (token_data : list (string * list point)) (ts : Z) :
  ts ∈ collect_timestamps token_data
  ↔ ∃ coin_id data pt, (coin_id, data) ∈ token_data ∧ pt ∈ data
                       ∧ bucket (timestamp pt) = ts.
Proof.
  unfold collect_timestamps, dict_values.
  assert (Hgen : ∀ s : gset Z,
    ts ∈ foldl (λ timestamps data,
                  foldl (λ timestamps point,
                           {[ bucket (timestamp point) ]} ∪ timestamps)
                        timestamps data) s token_data.*2
    ↔ ts ∈ s ∨ ∃ coin_id data pt, (coin_id, data) ∈ token_data ∧ pt ∈ data
                                  ∧ bucket (timestamp pt) = ts).
  { induction token_data as [|[c data] td IH]; intros s; cbn.
    - split; [by left|]. intros [?|(? & ? & ? & Hin & _)]; [done|].
      by apply elem_of_nil in Hin.
    - rewrite IH, collect_inner. split.
      + intros [[?|(pt & Hin & Hb)]|(c' & data' & pt & Hin & Hpt & Hb)].
        * by left.
        * right. exists c, data, pt. split; [left|done].
        * right. exists c', data', pt. split; [by right|done].
      + intros [?|(c' & data' & pt & Hin & Hpt & Hb)]; [left; by left|].
        apply elem_of_cons in Hin as [Heq|Hin].
        * simplify_eq. left. right. by exists pt.
        * right. by exists c', data', pt. }
  rewrite Hgen. split; [|by right].
  intros [Hin|?]; [|done]. by apply not_elem_of_empty in Hin.
Qed.

Lemma sorted_elem (s : gset Z) (ts : Z) : ts ∈ sorted s ↔ ts ∈ s.
Proof.
  unfold sorted. rewrite merge_sort_Permutation. apply elem_of_elements.
Qed.

Lemma sorted_NoDup (s : gset Z) : NoDup (sorted s).
Proof.
  unfold sorted. rewrite merge_sort_Permutation. apply NoDup_elements.
Qed.

Lemma StronglySorted_le_lt (l : list Z) :
  StronglySorted Z.le l → NoDup l → StronglySorted Z.lt l.
Proof.
  induction 1 as [|x l Hs IH Hall]; intros Hnd; [constructor|].
  apply NoDup_cons in Hnd as [Hnotin Hnd]. constructor; [by apply IH|].
  rewrite Forall_forall in Hall |- *. intros y Hy.
  specialize (Hall y Hy). assert (x ≠ y) by (intros ->; done). lia.
Qed.

Lemma sorted_ascending (s : gset Z) : StronglySorted Z.lt (sorted s).
Proof.
  apply StronglySorted_le_lt; [|apply sorted_NoDup].
  unfold sorted. apply StronglySorted_merge_sort; apply _.
Qed.

Lemma StronglySorted_filter {A} (R : relation A) (P : A → Prop)
    `{∀ x, Decision (P x)} (l : list A) :
  StronglySorted R l → StronglySorted R (filter P l).
Proof.
  induction 1 as [|x l Hs IH Hall]; [constructor|].
  rewrite filter_cons. case_decide; [|done].
  constructor; [done|].
  rewrite Forall_forall in Hall |- *. intros y Hy.
  apply list_elem_of_filter in Hy as [_ Hy]. by apply Hall.
Qed.

(** ** The common timeline *)

(** The loop that appends the timestamps found in every map is a filter. *)
Lemma find_common_timestamps_filter (price_maps : list (string * gmap Z Q))
    (keys : list string) (timestamps : list Z) :
  find_common_timestamps price_maps keys timestamps
  = filter (λ ts, in_all_maps price_maps keys ts) timestamps.
Proof.
  unfold find_common_timestamps.
  induction timestamps as [|ts l IH] using rev_ind; [done|].
  rewrite foldl_snoc, IH, filter_app, filter_cons, filter_nil.
  destruct (in_all_maps price_maps keys ts) eqn:E.
  - by rewrite decide_True by done.
  - rewrite decide_False by (by intros ?). by rewrite app_nil_r.
Qed.

Lemma build_price_maps_map (token_data : list (string * list point)) :
  NoDup (dict_keys token_data) →
  build_price_maps token_data
  = (λ e, (e.1, build_price_map e.2)) <$> token_data.
Proof.
  unfold build_price_maps.
  induction token_data as [|[c data] td IH] using rev_ind; [done|].
  unfold dict_keys. rewrite fmap_app, NoDup_app. intros (Hnd & Hdisj & _).
  rewrite foldl_snoc, IH by done. rewrite fmap_app. cbn.
  apply dict_set_new. unfold dict_keys. rewrite <- list_fmap_compose.
  intros Hin. apply (Hdisj c); [done|]. cbn. left.
Qed.

Lemma in_all_maps_spec (token_data : list (string * list point)) (ts : Z) :
  NoDup (dict_keys token_data) →
  in_all_maps (build_price_maps token_data) (dict_keys token_data) ts = true
  ↔ ∀ coin_id price_map, (coin_id, price_map) ∈ build_price_maps token_data →
                         is_Some (price_map !! ts).
Proof.
  intros Hnd. unfold in_all_maps.
  assert (Hkeys : dict_keys (build_price_maps token_data) = dict_keys token_data).
  { rewrite build_price_maps_map by done. unfold dict_keys.
    by rewrite <- list_fmap_compose. }
  rewrite forallb_forall. split.
  - intros Hall c pm Hin.
    assert (Hc : c ∈ dict_keys token_data).
    { rewrite <- Hkeys. unfold dict_keys. apply list_elem_of_fmap.
      by exists (c, pm). }
    apply list_elem_of_In in Hc. specialize (Hall c Hc).
    apply bool_decide_eq_true in Hall.
    rewrite (dict_get_elem _ c pm) in Hall; [done| |done].
    by rewrite Hkeys.
  - intros Hall c Hc%list_elem_of_In. apply bool_decide_eq_true.
    rewrite <- Hkeys in Hc. apply dict_get_is_Some in Hc as [pm Hpm].
    rewrite Hpm. cbn. apply (Hall c). by apply dict_get_Some_elem.
Qed.

Lemma common_timeline_ascending (token_data : list (string * list point)) :
  StronglySorted Z.lt (common_timeline token_data).
Proof.
  unfold common_timeline. rewrite find_common_timestamps_filter.
  apply StronglySorted_filter, sorted_ascending.
Qed.

Lemma common_timeline_elem (token_data : list (string * list point)) (ts : Z) :
  NoDup (dict_keys token_data) → token_data ≠ [] →
  ts ∈ common_timeline token_data
  ↔ ∀ coin_id price_map, (coin_id, price_map) ∈ build_price_maps token_data →
                         is_Some (price_map !! ts).
Proof.
  intros Hnd Hne. unfold common_timeline.
  rewrite find_common_timestamps_filter, list_elem_of_filter.
  rewrite Is_true_true, in_all_maps_spec by done.
  split; [by intros [? _]|]. intros Hall. split; [done|].
  apply sorted_elem, collect_timestamps_elem.
  destruct token_data as [|[c data] td]; [done|].
  destruct (Hall c (build_price_map data)) as [p Hp].
  { rewrite build_price_maps_map by done. left. }
  destruct (proj1 (build_price_map_dom data ts)) as (pt & Hpt & Hb); [by eauto|].
  exists c, data, pt. split; [left|done].
Qed.

(** ** Filling the aligned arrays *)

Lemma empty_aligned_map (keys : list string) :
  NoDup keys →
  empty_aligned keys = {| dates := []; prices := (λ c, (c, [])) <$> keys |}.
Proof.
  unfold empty_aligned. intros Hnd. f_equal.
  induction keys as [|c keys IH] using rev_ind; [done|].
  apply NoDup_app in Hnd as (Hnd & Hdisj & _).
  rewrite foldl_snoc, IH, fmap_app by done. cbn.
  apply dict_set_new. unfold dict_keys. rewrite <- list_fmap_compose.
  cbn. rewrite list_fmap_id. intros Hin. apply (Hdisj c Hin). left.
Qed.

Lemma append_price_ok (price_maps : list (string * gmap Z Q)) (ts : Z)
    (aligned : aligned_data) (coin_id : string) (column : list Q)
    (price_map : gmap Z Q) (p : Q) :
  dict_get (prices aligned) coin_id = Some column →
  dict_get price_maps coin_id = Some price_map →
  price_map !! ts = Some p →
  append_price price_maps ts aligned coin_id
  = Ret {| dates := dates aligned;
           prices := dict_set (prices aligned) coin_id (column ++ [p]) |}.
Proof.
  intros Hcol Hpm Hp. unfold append_price, dict_getitem.
  rewrite Hcol. cbn. rewrite Hpm. cbn. by rewrite Hp.
Qed.

(** One pass over the keys appends one price to each visited column. *)
Lemma append_prices_ok (price_maps : list (string * gmap Z Q)) (ts : Z)
    (g : string → Q) (keys : list string) (aligned : aligned_data) :
  NoDup (dict_keys (prices aligned)) → NoDup keys →
  (∀ c, c ∈ keys → c ∈ dict_keys (prices aligned)) →
  (∀ c, c ∈ keys →
        ∃ pm, dict_get price_maps c = Some pm ∧ pm !! ts = Some (g c)) →
  for_each (append_price price_maps ts) keys aligned
  = Ret {| dates := dates aligned;
           prices := (λ e, (e.1, if bool_decide (e.1 ∈ keys)
                                 then e.2 ++ [g e.1] else e.2))
                       <$> prices aligned |}.
Proof.
  revert aligned. induction keys as [|c keys IH]; intros aligned Hd Hk Hin Hg.
  - cbn. destruct aligned as [ds ps]. cbn. do 2 f_equal.
    rewrite <- (list_fmap_id ps) at 1. apply list_fmap_ext.
    intros _ [k col] _. cbn. by rewrite bool_decide_eq_false_2 by apply not_elem_of_nil.
  - apply NoDup_cons in Hk as [Hc Hk].
    destruct (Hg c) as (pm & Hpm & Hp); [left|].
    assert (Hcin : c ∈ dict_keys (prices aligned)) by (apply Hin; left).
    destruct (proj2 (dict_get_is_Some (prices aligned) c) Hcin) as [col Hcol].
    cbn [for_each]. rewrite (append_price_ok _ _ _ _ col pm (g c)) by done.
    cbn. rewrite (dict_set_old (prices aligned)) by done.
    rewrite IH; cbn.
    + do 2 f_equal. rewrite <- list_fmap_compose. apply list_fmap_ext.
      intros i [k v] Hi. cbn. apply list_elem_of_lookup_2 in Hi.
      destruct (decide (k = c)) as [->|Hne].
      * rewrite bool_decide_eq_false_2 by done.
        rewrite bool_decide_eq_true_2 by left.
        apply (dict_get_elem _ _ _ Hd) in Hi. by simplify_eq.
      * destruct (decide (k ∈ keys)) as [Hk'|Hk'].
        -- rewrite !bool_decide_eq_true_2; [done|by right|done].
        -- rewrite !bool_decide_eq_false_2; [done| |done].
           rewrite not_elem_of_cons. done.
    + unfold dict_keys. rewrite <- list_fmap_compose. apply Hd.
    + done.
    + intros c' Hc'. unfold dict_keys. rewrite <- list_fmap_compose.
      apply Hin. by right.
    + intros c' Hc'. apply Hg. by right.
Qed.

Section Fill.
Variable local_date : Z → string.

Lemma append_day_ok (price_maps : list (string * gmap Z Q)) (ts : Z)
    (g : string → Q) (aligned : aligned_data) :
  NoDup (dict_keys (prices aligned)) →
  (∀ c, c ∈ dict_keys (prices aligned) →
        ∃ pm, dict_get price_maps c = Some pm ∧ pm !! ts = Some (g c)) →
  append_day local_date price_maps (dict_keys (prices aligned)) aligned ts
  = Ret {| dates := dates aligned ++ [local_date ts];
           prices := (λ e, (e.1, e.2 ++ [g e.1])) <$> prices aligned |}.
Proof.
  intros Hd Hg. unfold append_day.
  rewrite (append_prices_ok price_maps ts g); cbn; [|done..].
  do 2 f_equal. apply list_fmap_ext. intros i [k v] Hi. cbn.
  rewrite bool_decide_eq_true_2; [done|].
  unfold dict_keys. apply list_elem_of_fmap. exists (k, v).
  split; [done|]. by apply list_elem_of_lookup_2 in Hi.
Qed.

Lemma append_days_ok (price_maps : list (string * gmap Z Q))
    (G : string → Z → Q) (keys : list string) (tss : list Z)
    (aligned : aligned_data) :
  keys = dict_keys (prices aligned) → NoDup keys →
  (∀ ts c, ts ∈ tss → c ∈ keys →
           ∃ pm, dict_get price_maps c = Some pm ∧ pm !! ts = Some (G c ts)) →
  for_each (append_day local_date price_maps keys) tss aligned
  = Ret {| dates := dates aligned ++ (local_date <$> tss);
           prices := (λ e, (e.1, e.2 ++ (G e.1 <$> tss))) <$> prices aligned |}.
Proof.
  revert aligned. induction tss as [|ts tss IH]; intros aligned Hk Hnd HG.
  - cbn. destruct aligned as [ds ps]. cbn. rewrite app_nil_r. do 2 f_equal.
    rewrite <- (list_fmap_id ps) at 1. apply list_fmap_ext.
    intros _ [k col] _. cbn. by rewrite app_nil_r.
  - cbn [for_each]. subst keys.
    rewrite (append_day_ok price_maps ts (λ c, G c ts)); [|done|].
    2: { intros c Hc. apply HG; [left|done]. }
    cbn. rewrite IH; cbn.
    + rewrite <- app_assoc. do 2 f_equal.
      rewrite <- list_fmap_compose. apply list_fmap_ext.
      intros i [k v] _. cbn. by rewrite <- app_assoc.
    + unfold dict_keys. by rewrite <- list_fmap_compose.
    + done.
    + intros ts' c Hts Hc. apply HG; [by right|done].
Qed.

(** The loops never raise [KeyError] on the common timeline, and what
    they build is [aligned_of]. *)
Lemma fill_aligned_ok (token_data : list (string * list point)) :
  NoDup (dict_keys token_data) →
  fill_aligned local_date (build_price_maps token_data)
               (dict_keys token_data) (common_timeline token_data)
  = Ret (aligned_of local_date token_data).
Proof.
  intros Hnd. unfold fill_aligned.
  rewrite empty_aligned_map by done.
  rewrite (append_days_ok _ (price_on (build_price_maps token_data))); cbn.
  - unfold aligned_of. f_equal. by rewrite <- list_fmap_compose.
  - unfold dict_keys. rewrite <- list_fmap_compose. cbn.
    by rewrite list_fmap_id.
  - done.
  - intros ts c Hts Hc. unfold common_timeline in Hts.
    rewrite find_common_timestamps_filter in Hts.
    apply list_elem_of_filter in Hts as [Hall _].
    apply Is_true_true in Hall. unfold in_all_maps in Hall.
    rewrite forallb_forall in Hall.
    specialize (Hall c (proj1 (list_elem_of_In _ _) Hc)).
    apply bool_decide_eq_true in Hall.
    assert (Hcin : c ∈ dict_keys (build_price_maps token_data)).
    { rewrite build_price_maps_map by done. unfold dict_keys.
      by rewrite <- list_fmap_compose. }
    apply dict_get_is_Some in Hcin as [pm Hpm].
    rewrite Hpm in Hall. cbn in Hall. destruct Hall as [p Hp].
    exists pm. split; [done|]. unfold price_on. rewrite Hpm. cbn.
    by rewrite Hp.
Qed.

End Fill.

(** ** The fetch loop *)

Section FetchLoop.
Variable api : string → Z → response.
Variable tf : timeframe.

Lemma fetch_loop (keys : list string) (st : fetch_state) :
  NoDup keys → (∀ c, c ∈ keys → c ∉ dict_keys (token_data st)) →
  foldl (fetch_body api tf) st keys
  = {| token_data := token_data st ++ fetched_data api tf keys;
       failed_tokens := failed_tokens st ++ failed api tf keys;
       fetch_log := fetch_log st ++ raw_writes api tf keys |}.
Proof.
  revert st. induction keys as [|c keys IH]; intros st Hnd Hfresh.
  - cbn. rewrite !app_nil_r. by destruct st.
  - apply NoDup_cons in Hnd as [Hc Hnd]. cbn [foldl].
    unfold fetched_data, failed, raw_writes, succeeded.
    rewrite !filter_cons. unfold fetch_body at 2.
    destruct (fetch_price_data api c (days tf)) as [|pt data] eqn:Hfetch.
    + cbn [nonempty]. rewrite decide_False by (by intros ?).
      rewrite decide_True by (by intros ?).
      rewrite IH; cbn; [|done|].
      * by rewrite <- app_assoc.
      * intros c' Hc'. apply Hfresh. by right.
    + cbn [nonempty]. rewrite decide_True by done.
      rewrite decide_False by (intros H; by apply H).
      rewrite IH; cbn; [|done|].
      * rewrite dict_set_new by (apply Hfresh; left).
        rewrite Hfetch. by rewrite <- !app_assoc.
      * intros c' Hc'. rewrite dict_set_new by (apply Hfresh; left).
        unfold dict_keys. rewrite fmap_app, elem_of_app. cbn.
        intros [Hin|Hin%list_elem_of_singleton].
        -- apply (Hfresh c'); [by right|done].
        -- by subst c'.
Qed.

Lemma TOKENS_keys_NoDup : NoDup (dict_keys TOKENS).
Proof. apply (bool_decide_unpack _). by vm_compute. Qed.

Lemma fetch_tokens_eq (log : fs_log) :
  fetch_tokens api tf log
  = {| token_data := fetched_data api tf (dict_keys TOKENS);
       failed_tokens := failed api tf (dict_keys TOKENS);
       fetch_log := log ++ raw_writes api tf (dict_keys TOKENS) |}.
Proof.
  unfold fetch_tokens. rewrite fetch_loop; [done|apply TOKENS_keys_NoDup|].
  intros c _. apply not_elem_of_nil.
Qed.

Lemma fetched_data_keys (keys : list string) :
  dict_keys (fetched_data api tf keys) = succeeded api tf keys.
Proof.
  unfold dict_keys, fetched_data. rewrite <- list_fmap_compose.
  apply list_fmap_id.
Qed.

Lemma succeeded_elem (keys : list string) (c : string) :
  c ∈ succeeded api tf keys
  ↔ c ∈ keys ∧ fetch_price_data api c (days tf) ≠ [].
Proof.
  unfold succeeded. rewrite list_elem_of_filter.
  destruct (fetch_price_data api c (days tf)); cbn; intuition done.
Qed.

Lemma failed_elem (keys : list string) (c : string) :
  c ∈ failed api tf keys ↔ c ∈ keys ∧ fetch_price_data api c (days tf) = [].
Proof.
  unfold failed. rewrite list_elem_of_filter.
  destruct (fetch_price_data api c (days tf)); cbn; intuition done.
Qed.

Lemma fetched_data_NoDup (keys : list string) :
  NoDup keys → NoDup (dict_keys (fetched_data api tf keys)).
Proof. intros Hnd. rewrite fetched_data_keys. by apply NoDup_filter. Qed.

Lemma fetched_data_nonempty (keys : list string) (c : string)
    (data : list point) :
  (c, data) ∈ fetched_data api tf keys →
  data = fetch_price_data api c (days tf) ∧ data ≠ [] ∧ c ∈ keys.
Proof.
  unfold fetched_data. intros (c' & Heq & Hin)%list_elem_of_fmap.
  simplify_eq. apply succeeded_elem in Hin as [Hc Hne]. done.
Qed.

End FetchLoop.

(** ** File names *)

Lemma TOKENS_keys_cases (c : string) :
  c ∈ dict_keys TOKENS →
  c = "bitcoin" ∨ c = "ethereum" ∨ c = "nillion" ∨ c = "mind-network".
Proof.
  cbn. rewrite !elem_of_cons, elem_of_nil. tauto.
Qed.

Lemma raw_not_aligned (c t t' : string) :
  c ∈ dict_keys TOKENS → raw_filename c t ≠ aligned_filename t'.
Proof.
  intros [->|[->|[->| ->]]]%TOKENS_keys_cases; cbn; discriminate.
Qed.

Lemma raw_not_correlation (c t t' : string) :
  c ∈ dict_keys TOKENS → raw_filename c t ≠ correlation_filename t'.
Proof.
  intros [->|[->|[->| ->]]]%TOKENS_keys_cases; cbn; discriminate.
Qed.


Lemma raw_filename_inj (c c' t t' : string) :
  c ∈ dict_keys TOKENS → c' ∈ dict_keys TOKENS →
  raw_filename c t = raw_filename c' t' → c = c'.
Proof.
  intros [->|[->|[->| ->]]]%TOKENS_keys_cases
         [->|[->|[->| ->]]]%TOKENS_keys_cases; cbn;
    (done || discriminate).
Qed.

(** The keys of the correlation file identify the asset. *)
Lemma symbol_inj (c c' s s' : string) :
  dict_get TOKENS c = Some s → dict_get TOKENS c' = Some s' →
  lower s = lower s' → c = c'.
Proof.
  unfold TOKENS. cbn. intros H H' Hl.
  repeat case_decide; simplify_eq; try done;
    vm_compute in Hl; discriminate Hl.
Qed.

(** ** One window *)

Lemma bind_Ret_inv {A B} (m : result A) (k : A → result B) (b : B) :
  m ≫= k = Ret b → ∃ a, m = Ret a ∧ k a = Ret b.
Proof. destruct m as [a|e]; cbn; [by eauto|done]. Qed.

Lemma dict_keys_set {K V} `{EqDecision K} (d : list (K * V)) (k k' : K) (v : V) :
  k' ∈ dict_keys (dict_set d k v) → k' = k ∨ k' ∈ dict_keys d.
Proof.
  unfold dict_keys. induction d as [|[k0 v0] d IH]; cbn.
  - rewrite list_elem_of_singleton. by left.
  - case_decide as Hk; cbn; rewrite !elem_of_cons.
    { intros [->|Hin]; [by left|right; by right]. }
    intros [->|Hin]; [right; by left|].
    destruct (IH Hin); [by left|right; by right].
Qed.

(** The keys of the correlation mapping come from the assets the loop
    visits, the reference asset left out. *)
Lemma correlate_keys (aligned : aligned_data) (nil_prices : list Q)
    (keys : list string) (acc cs : list (string * value)) (k : string) :
  for_each (correlate_body aligned nil_prices) keys acc = Ret cs →
  k ∈ dict_keys cs →
  k ∈ dict_keys acc
  ∨ ∃ c s, c ∈ keys ∧ c ≠ "nillion" ∧ dict_get TOKENS c = Some s
           ∧ k = "nil_" +:+ lower s.
Proof.
  revert acc. induction keys as [|c keys IH]; intros acc Hrun Hk.
  - cbn in Hrun. simplify_eq. by left.
  - cbn [for_each] in Hrun. apply bind_Ret_inv in Hrun as (acc' & Hbody & Hrun).
    destruct (IH acc' Hrun Hk) as [Hacc|(c' & s & Hc' & Hne & Hs & ->)].
    + unfold correlate_body in Hbody. case_decide as Hnil.
      * apply bind_Ret_inv in Hbody as (tp & _ & Hbody).
        apply bind_Ret_inv in Hbody as (corr & _ & Hbody).
        apply bind_Ret_inv in Hbody as (s & Hs & Hbody).
        simplify_eq. apply dict_keys_set in Hacc as [->|Hacc]; [|by left].
        right. exists c, s. split; [left|]. split; [done|]. split; [|done].
        unfold dict_getitem in Hs. by destruct (dict_get TOKENS c); simplify_eq.
      * simplify_eq. by left.
    + right. exists c', s. split; [by right|done].
Qed.

Lemma correlate_and_save_cases (tf : timeframe) (keys : list string)
    (aligned : aligned_data) (log : fs_log) :
  correlate_and_save tf keys aligned log = (log, Ret ())
  ∨ (∃ e, correlate_and_save tf keys aligned log = (log, Raise e))
  ∨ ∃ nil_prices cs,
      for_each (correlate_body aligned nil_prices) keys [] = Ret cs
      ∧ correlate_and_save tf keys aligned log
        = (log ++ [(correlation_filename (name tf), JCorrelations cs)], Ret ()).
Proof.
  unfold correlate_and_save.
  destruct (bool_decide _ && _); [|by left].
  destruct (dict_getitem (prices aligned) "nillion") as [nil_prices|e]; cbn;
    [|right; left; by eauto].
  destruct (for_each _ keys []) as [cs|e] eqn:Hrun; [|right; left; by eauto].
  right. right. by exists nil_prices, cs.
Qed.


Section Window.
Variable api : string → Z → response.
Variable local_date : Z → string.
Variable tf : timeframe.

Let keys := dict_keys TOKENS.
Let td := fetched_data api tf keys.

Lemma td_NoDup : NoDup (dict_keys td).
Proof. apply fetched_data_NoDup, TOKENS_keys_NoDup. Qed.

(** The function, with its loops replaced by what they compute. *)
Lemma save_data_for_timeframe_eq (log : fs_log) :
  save_data_for_timeframe api local_date tf log
  = let log1 := log ++ raw_writes api tf keys in
    if (length td <? 2)%nat then (log1, Ret ())
    else if bool_decide (dict_get td "nillion" = None) then (log1, Ret ())
    else match common_timeline td with
         | [] => (log1, Ret ())
         | _ :: _ =>
             correlate_and_save tf (dict_keys td) (aligned_of local_date td)
               (log1 ++ [(aligned_filename (name tf),
                          JAligned (aligned_of local_date td))])
         end.
Proof.
  unfold save_data_for_timeframe. rewrite fetch_tokens_eq.
  cbv zeta. cbn [token_data fetch_log]. fold keys. fold td.
  destruct (length td <? 2)%nat; [done|].
  destruct (bool_decide (dict_get td "nillion" = None)); [done|].
  fold (common_timeline td).
  destruct (common_timeline td) as [|ts tss] eqn:Hcommon; [done|].
  rewrite <- Hcommon. by rewrite fill_aligned_ok by apply td_NoDup.
Qed.

(** What a window adds to the log: the raw files, then possibly the
    aligned file, then possibly the correlation file. *)
Lemma save_data_for_timeframe_log (log : fs_log) :
  let out := save_data_for_timeframe api local_date tf log in
  out.1 = log ++ raw_writes api tf keys
  ∨ out.1 = log ++ raw_writes api tf keys
                ++ [(aligned_filename (name tf),
                     JAligned (aligned_of local_date td))]
  ∨ ∃ nil_prices cs,
      for_each (correlate_body (aligned_of local_date td) nil_prices)
               (dict_keys td) [] = Ret cs
      ∧ out.1 = log ++ raw_writes api tf keys
                    ++ [(aligned_filename (name tf),
                         JAligned (aligned_of local_date td));
                        (correlation_filename (name tf), JCorrelations cs)].
Proof.
  cbv zeta. rewrite save_data_for_timeframe_eq. cbv zeta.
  destruct (length td <? 2)%nat; [by left|].
  destruct (bool_decide (dict_get td "nillion" = None)); [by left|].
  destruct (common_timeline td) as [|ts tss]; [by left|].
  destruct (correlate_and_save_cases tf (dict_keys td)
              (aligned_of local_date td)
              ((log ++ raw_writes api tf keys)
               ++ [(aligned_filename (name tf),
                    JAligned (aligned_of local_date td))]))
    as [->|[[e ->]|(nil_prices & cs & Hrun & ->)]]; cbn.
  - right. left. by rewrite <- app_assoc.
  - right. left. by rewrite <- app_assoc.
  - right. right. exists nil_prices, cs. split; [done|].
    by rewrite <- !app_assoc.
Qed.

End Window.

(** ** The aligner: what the specification states *)

Lemma StronglySorted_lt_NoDup (l : list Z) : StronglySorted Z.lt l → NoDup l.
Proof.
  induction 1 as [|x l Hs IH Hall]; [constructor|].
  apply NoDup_cons. split; [|done].
  rewrite Forall_forall in Hall. intros Hx. specialize (Hall x Hx). lia.
Qed.

Lemma ascending_pair (l : list Z) (a b : Z) :
  StronglySorted Z.lt l → (a < b)%Z → (∀ x, x ∈ l ↔ x = a ∨ x = b) →
  l = [a; b].
Proof.
  intros Hs Hab Hl.
  apply (StronglySorted_unique_strong Z.lt); [|done| |].
  - intros x y _ _ Hxy Hyx. lia.
  - repeat constructor; done.
  - apply NoDup_Permutation; [by apply StronglySorted_lt_NoDup| |].
    + apply NoDup_cons. split; [|apply NoDup_singleton].
      rewrite list_elem_of_singleton. lia.
    + intros x. rewrite Hl, elem_of_cons, list_elem_of_singleton. done.
Qed.

(** C2: the common timeline of a collection of price series is exactly the
    set of day buckets present in every asset's price map, the intersection
    and not the union, in ascending order.  In particular, for an asset with
    buckets [{d1, d2, d3}] and one with buckets [{d2, d3, d4}] the common
    timeline is [[d2; d3]]. *)
Theorem common_timeline_is_intersection
    (token_data : list (string * list point)) :
  NoDup (dict_keys token_data) → token_data ≠ [] →
  (∀ ts, ts ∈ common_timeline token_data
         ↔ ∀ coin_id price_map,
             (coin_id, price_map) ∈ build_price_maps token_data →
             ts ∈ dom price_map)
  ∧ StronglySorted Z.lt (common_timeline token_data)
  ∧ (∀ A B mapA mapB d1 d2 d3 d4,
       build_price_maps token_data = [(A, mapA); (B, mapB)] →
       dom mapA = {[d1; d2; d3]} → dom mapB = {[d2; d3; d4]} →
       (d1 < d2 < d3)%Z → (d3 < d4)%Z →
       common_timeline token_data = [d2; d3]).
Proof.
  intros Hnd Hne.
  assert (Helem : ∀ ts, ts ∈ common_timeline token_data
         ↔ ∀ coin_id price_map,
             (coin_id, price_map) ∈ build_price_maps token_data →
             ts ∈ dom price_map).
  { intros ts. rewrite common_timeline_elem by done.
    split; intros Hall c pm Hin; apply elem_of_dom; by apply (Hall c). }
  split; [done|]. split; [apply common_timeline_ascending|].
  intros A B mapA mapB d1 d2 d3 d4 Hmaps HA HB Hlt1 Hlt2.
  apply ascending_pair; [apply common_timeline_ascending|lia|].
  intros ts. rewrite Helem, Hmaps. split.
  - intros Hall.
    pose proof (Hall A mapA ltac:(left)) as H1.
    pose proof (Hall B mapB ltac:(right; left)) as H2.
    rewrite HA in H1. rewrite HB in H2.
    rewrite !elem_of_union, !elem_of_singleton in H1, H2. lia.
  - intros Hts c pm Hin.
    rewrite !elem_of_cons, elem_of_nil in Hin.
    destruct Hin as [Heq|[Heq|[]]]; simplify_eq.
    + rewrite HA, !elem_of_union, !elem_of_singleton. lia.
    + rewrite HB, !elem_of_union, !elem_of_singleton. lia.
Qed.

Lemma common_timeline_is_intersection_witness :
  common_timeline overlapping_series = [day 2; day 3].
Proof.
  destruct (common_timeline_is_intersection overlapping_series)
    as (_ & _ & Hexample).
  - apply (bool_decide_unpack _). by vm_compute.
  - discriminate.
  - apply (Hexample "A" "B"
             (build_price_map [pt (day 1 + 1000) 10; pt (day 2 + 2000) 11;
                               pt (day 3 + 3000) 12])
             (build_price_map [pt (day 2 + 500) 20; pt (day 3) 21;
                               pt (day 4 + 86399999) 22])
             (day 1) (day 2) (day 3) (day 4)).
    + reflexivity.
    + by vm_compute.
    + by vm_compute.
    + by vm_compute.
    + by vm_compute.
Defined.

(** C5: a sample's timestamp is mapped to the day bucket
    [timestamp - timestamp mod 86400000], and the price recorded for a
    bucket is the price of the last sample of the series that falls into
    it: a later sample overwrites an earlier one. *)
Theorem bucketing_last_write_wins (data : list point) :
  (∀ ts, bucket ts = (ts - ts `mod` 86400000)%Z)
  ∧ (∀ b, build_price_map data !! b
          = price <$> last (filter (λ sample, bucket (timestamp sample) = b)
                                   data))
  ∧ (∀ sample, build_price_map (data ++ [sample])
               !! (timestamp sample - timestamp sample `mod` 86400000)%Z
               = Some (price sample)).
Proof.
  split; [apply bucket_floor|]. split; [apply build_price_map_lookup|].
  intros sample. rewrite <- bucket_floor, build_price_map_snoc.
  apply lookup_insert_eq.
Qed.

(** C6: the aligned dataset built by the alignment step has, for every
    asset, a price sequence as long as the sequence of dates, and at every
    position the bucketed price of that asset in the day bucket the date at
    that position was made from.  The loops that build it do not raise. *)
Theorem aligned_dataset_invariant (local_date : Z → string)
    (token_data : list (string * list point)) :
  NoDup (dict_keys token_data) →
  let common_timestamps := common_timeline token_data in
  ∃ aligned,
    fill_aligned local_date (build_price_maps token_data)
                 (dict_keys token_data) common_timestamps = Ret aligned
    ∧ dates aligned = local_date <$> common_timestamps
    ∧ dict_keys (prices aligned) = dict_keys token_data
    ∧ ∀ coin_id column, (coin_id, column) ∈ prices aligned →
        length column = length (dates aligned)
        ∧ ∃ data, (coin_id, data) ∈ token_data
          ∧ ∀ i ts, common_timestamps !! i = Some ts →
              is_Some (column !! i)
              ∧ column !! i = build_price_map data !! ts.
Proof.
  intros Hnd common_timestamps. subst common_timestamps.
  exists (aligned_of local_date token_data).
  split; [by apply fill_aligned_ok|]. split; [done|]. split.
  { unfold aligned_of, dict_keys. cbn. rewrite <- list_fmap_compose.
    apply list_fmap_id. }
  intros c column Hin. cbn in Hin.
  apply list_elem_of_fmap in Hin as (c' & Heq & Hc). simplify_eq.
  split; [cbn; by rewrite !length_fmap|].
  unfold dict_keys in Hc. apply list_elem_of_fmap in Hc as ([c data] & -> & Hin).
  exists data. split; [done|]. intros i ts Hi. cbn.
  rewrite list_lookup_fmap, Hi. cbn. split; [by eauto|].
  assert (Hne : token_data ≠ []) by (intros ->; by apply elem_of_nil in Hin).
  assert (Hpm : dict_get (build_price_maps token_data) c
                = Some (build_price_map data)).
  { apply dict_get_elem.
    - rewrite build_price_maps_map by done. unfold dict_keys.
      by rewrite <- list_fmap_compose.
    - rewrite build_price_maps_map by done.
      apply list_elem_of_fmap. by exists (c, data). }
  apply list_elem_of_lookup_2 in Hi.
  pose proof (proj1 (common_timeline_elem token_data ts Hnd Hne) Hi) as Hall.
  destruct (Hall c (build_price_map data)) as [p Hp].
  { by apply dict_get_Some_elem. }
  unfold price_on. rewrite Hpm. cbn. by rewrite Hp.
Qed.

Lemma aligned_dataset_invariant_witness :
  ∃ aligned,
    fill_aligned fixed_date (build_price_maps overlapping_series)
                 (dict_keys overlapping_series)
                 (common_timeline overlapping_series) = Ret aligned
    ∧ prices aligned = [("A", [11; 12]%Q); ("B", [20; 21]%Q)].
Proof.
  destruct (aligned_dataset_invariant fixed_date overlapping_series)
    as (aligned & Hfill & _).
  - apply (bool_decide_unpack _). by vm_compute.
  - exists aligned. split; [exact Hfill|].
    assert (Hrun : fill_aligned fixed_date (build_price_maps overlapping_series)
                     (dict_keys overlapping_series)
                     (common_timeline overlapping_series)
                   = Ret {| dates := ["2023-11-14"; "2023-11-14"];
                            prices := [("A", [11; 12]%Q); ("B", [20; 21]%Q)] |})
      by (vm_compute; reflexivity).
    rewrite Hrun in Hfill. injection Hfill as <-. reflexivity.
Defined.

(** The aligned dataset a window persists is the one of C6, built from the
    series that window fetched. *)
Lemma persisted_aligned_dataset (api : string → Z → response)
    (local_date : Z → string) (tf : timeframe) (filename : string)
    (aligned : aligned_data) :
  (filename, JAligned aligned) ∈ (save_data_for_timeframe api local_date tf []).1 →
  filename = aligned_filename (name tf)
  ∧ fill_aligned local_date
      (build_price_maps (token_data (fetch_tokens api tf [])))
      (dict_keys (token_data (fetch_tokens api tf [])))
      (common_timeline (token_data (fetch_tokens api tf [])))
    = Ret aligned.
Proof.
  intros Hin. rewrite fetch_tokens_eq. cbn [token_data].
  rewrite fill_aligned_ok by apply td_NoDup.
  assert (Hraw : (filename, JAligned aligned)
                 ∉ raw_writes api tf (dict_keys TOKENS)).
  { unfold raw_writes. intros (c & Heq & _)%list_elem_of_fmap. discriminate Heq. }
  destruct (save_data_for_timeframe_log api local_date tf [])
    as [Hlog|[Hlog|(nil_prices & cs & _ & Hlog)]];
    rewrite Hlog in Hin; cbn [app] in Hin.
  - done.
  - apply elem_of_app in Hin as [?|Hin%list_elem_of_singleton]; [done|].
    by simplify_eq.
  - apply elem_of_app in Hin as [?|Hin]; [done|].
    apply elem_of_cons in Hin as [Hin|Hin%list_elem_of_singleton];
      [by simplify_eq|discriminate Hin].
Qed.

(** ** The orchestrator: what the specification states *)

Section Orchestrator.
Variable api : string → Z → response.
Variable local_date : Z → string.
Variable tf : timeframe.

Lemma token_data_fetched (log : fs_log) :
  token_data (fetch_tokens api tf log) = fetched_data api tf (dict_keys TOKENS).
Proof. by rewrite fetch_tokens_eq. Qed.

Lemma raw_writes_targets (w : string * json) :
  w ∈ raw_writes api tf (dict_keys TOKENS) →
  ∃ c, c ∈ succeeded api tf (dict_keys TOKENS)
       ∧ w = (raw_filename c (name tf), JRaw (fetch_price_data api c (days tf))).
Proof.
  unfold raw_writes. intros (c & -> & Hc)%list_elem_of_fmap. by exists c.
Qed.

Lemma insufficient_window (log : fs_log) :
  (length (succeeded api tf (dict_keys TOKENS)) < 2)%nat
  ∨ fetch_price_data api "nillion" (days tf) = [] →
  save_data_for_timeframe api local_date tf log
  = (log ++ raw_writes api tf (dict_keys TOKENS), Ret ()).
Proof using Type.
  intros Hfew. rewrite save_data_for_timeframe_eq. cbv zeta.
  destruct (Nat.ltb_spec (length (fetched_data api tf (dict_keys TOKENS))) 2)
    as [_|Hlen]; [done|].
  unfold fetched_data in Hlen. rewrite length_fmap in Hlen.
  destruct Hfew as [?|Hnil]; [lia|].
  rewrite bool_decide_eq_true_2; [done|].
  apply dict_get_None. rewrite fetched_data_keys, succeeded_elem.
  intros [_ ?]. done.
Qed.

End Orchestrator.

(** C8, as stated, fails: the raw series of an asset is written inside the
    fetch loop, as soon as its fetch succeeds and before the two checks,
    so a window that is then abandoned has already written raw files. *)
Lemma insufficient_window_writes_raw_file :
  (length (succeeded api_bitcoin_only window_30d (dict_keys TOKENS)) < 2)%nat
  ∧ save_data_for_timeframe api_bitcoin_only fixed_date window_30d []
    = ([("data/correlation/bitcoin_30d.json",
         JRaw [pt 1700000000000 35000])], Ret ()).
Proof.
  split.
  - apply (bool_decide_unpack _). by vm_compute.
  - vm_compute. reflexivity.
Qed.

(** C8, amended: when fewer than 2 fetches succeed in a window, or the fetch
    of the reference asset fails, the window returns after the checks: what
    it has written is the raw series file of each asset whose fetch
    succeeded, written during the fetch loop, and neither an aligned dataset
    file nor a correlation file; the run goes on with the next window. *)
Theorem insufficient_window_only_raw_files (api : string → Z → response)
    (local_date : Z → string) (tf : timeframe) (rest : list timeframe)
    (log : fs_log) :
  (length (succeeded api tf (dict_keys TOKENS)) < 2)%nat
  ∨ fetch_price_data api "nillion" (days tf) = [] →
  let raw := (λ c, (raw_filename c (name tf),
                    JRaw (fetch_price_data api c (days tf))))
               <$> succeeded api tf (dict_keys TOKENS) in
  save_data_for_timeframe api local_date tf log = (log ++ raw, Ret ())
  ∧ (∀ w, w ∈ raw → w.1 ≠ aligned_filename (name tf)
                    ∧ w.1 ≠ correlation_filename (name tf))
  ∧ run_timeframes api local_date (tf :: rest) log
    = run_timeframes api local_date rest (log ++ raw).
Proof.
  intros Hfew raw.
  pose proof (insufficient_window api local_date tf log Hfew) as Hsave.
  split; [exact Hsave|]. split.
  - intros w (c & Hc & ->)%raw_writes_targets. cbn.
    apply succeeded_elem in Hc as [Hc _].
    split; [by apply raw_not_aligned|by apply raw_not_correlation].
  - cbn [run_timeframes]. by rewrite Hsave.
Qed.

Lemma insufficient_window_only_raw_files_witness :
  run_timeframes api_bitcoin_only fixed_date [window_30d] []
  = ([("data/correlation/bitcoin_30d.json", JRaw [pt 1700000000000 35000])],
     Ret ()).
Proof.
  destruct (insufficient_window_only_raw_files api_bitcoin_only fixed_date
              window_30d [] []) as (_ & _ & Hrun).
  - left. apply (bool_decide_unpack _). by vm_compute.
  - rewrite Hrun. vm_compute. reflexivity.
Defined.



(** C10: an asset whose fetch yields no point, because the request raised
    (the exception is caught inside [fetch_price_data], which then returns
    the empty list) or because the response was empty, is put on the list of
    failed assets and is in none of the raw series files, the alignment
    input, the aligned dataset or the correlation mapping; every series the
    alignment works on has at least one point. *)
Theorem failed_fetch_excluded (api : string → Z → response)
    (local_date : Z → string) (tf : timeframe) (log : fs_log)
    (coin_id : string) :
  coin_id ∈ dict_keys TOKENS →
  api coin_id (days tf) = RequestException
  ∨ api coin_id (days tf) = UnexpectedException
  ∨ api coin_id (days tf) = Prices [] →
  let st := fetch_tokens api tf log in
  fetch_price_data api coin_id (days tf) = []
  ∧ coin_id ∈ failed_tokens st
  ∧ (coin_id ∉ dict_keys (token_data st))
  ∧ (∀ c data, (c, data) ∈ token_data st → data ≠ [])
  ∧ ∃ new,
      (save_data_for_timeframe api local_date tf log).1 = log ++ new
      ∧ ∀ w, w ∈ new →
          w.1 ≠ raw_filename coin_id (name tf)
          ∧ (∀ aligned, w.2 = JAligned aligned →
                        coin_id ∉ dict_keys (prices aligned))
          ∧ (∀ correlations symbol,
               w.2 = JCorrelations correlations →
               dict_get TOKENS coin_id = Some symbol →
               ("nil_" +:+ lower symbol) ∉ dict_keys correlations).
Proof.
  intros Hcoin Hapi. cbv zeta.
  assert (Hfetch : fetch_price_data api coin_id (days tf) = []).
  { unfold fetch_price_data. by destruct Hapi as [->|[->| ->]]. }
  rewrite fetch_tokens_eq. cbn [token_data failed_tokens].
  set (keys := dict_keys TOKENS) in *.
  set (td := fetched_data api tf keys).
  assert (Hnotin : coin_id ∉ dict_keys td).
  { unfold td. rewrite fetched_data_keys, succeeded_elem. intros [_ ?]. done. }
  split; [done|]. split; [by apply failed_elem|]. split; [done|].
  split; [intros c data Hin; by apply fetched_data_nonempty in Hin as (_ & ? & _)|].
  assert (Hraw : ∀ w, w ∈ raw_writes api tf keys →
    w.1 ≠ raw_filename coin_id (name tf)
    ∧ (∀ aligned, w.2 = JAligned aligned → coin_id ∉ dict_keys (prices aligned))
    ∧ (∀ correlations symbol, w.2 = JCorrelations correlations →
         dict_get TOKENS coin_id = Some symbol →
         ("nil_" +:+ lower symbol) ∉ dict_keys correlations)).
  { intros w (c & Hc & ->)%raw_writes_targets. cbn.
    apply succeeded_elem in Hc as [Hc Hne].
    split; [|done].
    intros Heq%raw_filename_inj; [|done..]. by subst c. }
  assert (Haligned : ∀ w,
    w = (aligned_filename (name tf), JAligned (aligned_of local_date td)) →
    w.1 ≠ raw_filename coin_id (name tf)
    ∧ (∀ aligned, w.2 = JAligned aligned → coin_id ∉ dict_keys (prices aligned))
    ∧ (∀ correlations symbol, w.2 = JCorrelations correlations →
         dict_get TOKENS coin_id = Some symbol →
         ("nil_" +:+ lower symbol) ∉ dict_keys correlations)).
  { intros w ->. cbn. split; [|split; [|done]].
    - intros Heq. symmetry in Heq. by apply raw_not_aligned in Heq.
    - intros aligned [= <-]. unfold aligned_of, dict_keys. cbn.
      rewrite <- list_fmap_compose. cbn. by rewrite list_fmap_id. }
  pose proof (save_data_for_timeframe_log api local_date tf log) as Hcases.
  cbv zeta in Hcases. fold keys in Hcases. fold td in Hcases.
  destruct Hcases as [Hlog|[Hlog|(nil_prices & cs & Hrun & Hlog)]].
  - exists (raw_writes api tf keys). split; [done|]. done.
  - eexists. split; [exact Hlog|].
    intros w [Hw|Hw%list_elem_of_singleton]%elem_of_app; [by apply Hraw|].
    by apply Haligned.
  - eexists. split; [exact Hlog|].
    intros w [Hw|Hw]%elem_of_app; [by apply Hraw|].
    apply elem_of_cons in Hw as [Hw|Hw%list_elem_of_singleton];
      [by apply Haligned|].
    subst w. cbn. split; [|split; [done|]].
    + intros Heq. symmetry in Heq. by apply raw_not_correlation in Heq.
    + intros correlations symbol [= <-] Hsym Hk.
      destruct (correlate_keys _ _ _ _ _ _ Hrun Hk)
        as [Hin|(c & s & Hc & Hne & Hs & Heq)].
      { by apply elem_of_nil in Hin. }
      cbn in Heq. injection Heq as Heq.
      assert (coin_id = c) by (by apply (symbol_inj _ _ _ _ Hsym Hs)).
      by subst c.
Qed.

Lemma failed_fetch_excluded_witness :
  "ethereum" ∈ failed_tokens (fetch_tokens api_single_day window_30d [])
  ∧ "ethereum" ∉ dict_keys (token_data (fetch_tokens api_single_day window_30d [])).
Proof.
  destruct (failed_fetch_excluded api_single_day fixed_date window_30d []
              "ethereum") as (_ & Hfailed & Hnotin & _).
  - apply (bool_decide_unpack _). by vm_compute.
  - left. reflexivity.
  - split; [exact Hfailed|exact Hnotin].
Defined.

(** ** Scenarios of the specification *)

(** Two samples of one series on the same day: the second price is kept. *)
Example same_day_second_wins :
  build_price_map [pt (day 5 + 10) 1; pt (day 5 + 20) 2] !! day 5 = Some 2%Q.
Proof. vm_compute. reflexivity. Qed.

(** A series with no sample empties the common timeline. *)
Lemma empty_series_empties_timeline (token_data : list (string * list point))
    (coin_id : string) :
  NoDup (dict_keys token_data) → (coin_id, []) ∈ token_data →
  common_timeline token_data = [].
Proof.
  intros Hnd Hin.
  assert (Hne : token_data ≠ []) by (intros ->; by apply elem_of_nil in Hin).
  destruct (common_timeline token_data) as [|ts tss] eqn:Hcommon; [done|].
  assert (Hts : ts ∈ common_timeline token_data) by (rewrite Hcommon; left).
  pose proof (proj1 (common_timeline_elem token_data ts Hnd Hne) Hts) as Hall.
  destruct (Hall coin_id (build_price_map [])) as [p Hp]; [|done].
  rewrite build_price_maps_map by done.
  apply list_elem_of_fmap. by exists (coin_id, []).
Qed.

(** Reference prices [[100, 102, 101, 105, 104]] against a target at half
    these prices: the same percentage moves, correlation 1. *)
Example identical_moves_correlate :
  calculate_correlation [100; 102; 101; 105; 104]%Q
                        [50; 51; 101 # 2; 105 # 2; 52]%Q
  = Ret (VFloat (Fin 1)).
Proof.
  rewrite calculate_correlation_value;
    [|reflexivity|cbn; lia|apply nonzero_priors; q_nonzero..].
  assert (Hsame : Q2R <$> simple_returns [50; 51; 101 # 2; 105 # 2; 52]%Q
                  = Q2R <$> simple_returns [100; 102; 101; 105; 104]%Q).
  { eval_returns. cbn. unfold Q2R. cbn.
    repeat (apply (f_equal2 cons); [lra|]). reflexivity. }
  rewrite Hsame. do 2 f_equal. apply pearson_self. eval_variance.
Qed.

(** With the reference asset missing the first window writes the raw files
    of the others and [main] goes on to the second window. *)
Example reference_missing_run_continues :
  main api_bitcoin_only fixed_date []
  = ([("data/correlation/bitcoin_30d.json", JRaw [pt 1700000000000 35000]);
      ("data/correlation/bitcoin_90d.json", JRaw [pt 1700000000000 35000])],
     Ret ()).
Proof. vm_compute. reflexivity. Qed.

(** A zero price of the reference asset on the first common day: the raw
    and aligned files of the first window are written, the division raises
    and the second window is never run. *)
Example zero_price_aborts_run :
  main api_zero_price fixed_date []
  = ([("data/correlation/bitcoin_30d.json",
       JRaw [pt (day 19675) 35000; pt (day 19676) 36000]);
      ("data/correlation/nillion_30d.json",
       JRaw [pt (day 19675) 0; pt (day 19676) (1 # 2)]);
      ("data/correlation/aligned_30d.json",
       JAligned {| dates := ["2023-11-14"; "2023-11-14"];
                   prices := [("bitcoin", [35000; 36000]%Q);
                              ("nillion", [0; 1 # 2]%Q)] |})],
     Raise ZeroDivisionError).
Proof. vm_compute. reflexivity. Qed.

(** * Further properties of the code *)

(** ** Bucketing and the timelines *)

(** X1: the day bucket of a timestamp is the midnight at or before it: a
    multiple of 86400000, at most the timestamp and less than a day below
    it, also for timestamps before the epoch (floor division).  Bucketing
    twice changes nothing, and two timestamps share a bucket exactly when
    they lie in the same day. *)
Theorem bucket_is_midnight_before (ts : Z) :
  (bucket ts ≤ ts < bucket ts + 86400000)%Z
  ∧ (bucket ts `mod` 86400000 = 0)%Z
  ∧ bucket (bucket ts) = bucket ts
  ∧ ∀ ts', bucket ts = bucket ts'
           ↔ (bucket ts ≤ ts' < bucket ts + 86400000)%Z.
Proof.
  unfold bucket.
  pose proof (Z.div_mod ts 86400000 ltac:(lia)) as Hdm.
  pose proof (Z.mod_pos_bound ts 86400000 ltac:(lia)) as Hb.
  split; [lia|]. split; [apply Z.mod_mul; lia|].
  split; [by rewrite Z.div_mul by lia|].
  intros ts'.
  pose proof (Z.div_mod ts' 86400000 ltac:(lia)) as Hdm'.
  pose proof (Z.mod_pos_bound ts' 86400000 ltac:(lia)) as Hb'.
  split; [lia|]. intros Hin.
  assert (ts' `div` 86400000 = ts `div` 86400000)%Z as ->; [|done].
  symmetry.
  apply Z.div_unique with (r := (ts' - ts `div` 86400000 * 86400000)%Z);
    [left|]; lia.
Qed.

(** X2: the candidate timeline, the sorted set of timestamps collected
    before the price maps are built, holds exactly the day buckets of the
    points of any of the series, each once, in ascending order. *)
Theorem candidate_timeline_is_union (token_data : list (string * list point)) :
  (∀ ts, ts ∈ sorted (collect_timestamps token_data)
         ↔ ∃ coin_id data sample,
             (coin_id, data) ∈ token_data ∧ sample ∈ data
             ∧ bucket (timestamp sample) = ts)
  ∧ StronglySorted Z.lt (sorted (collect_timestamps token_data)).
Proof.
  split; [|apply sorted_ascending].
  intros ts. rewrite sorted_elem. apply collect_timestamps_elem.
Qed.

Lemma common_timeline_in_series (token_data : list (string * list point))
    (coin_id : string) (data : list point) (ts : Z) :
  NoDup (dict_keys token_data) → (coin_id, data) ∈ token_data →
  ts ∈ common_timeline token_data →
  ∃ sample, sample ∈ data ∧ bucket (timestamp sample) = ts.
Proof.
  intros Hnd Hin Hts.
  assert (Hne : token_data ≠ []) by (intros ->; by apply elem_of_nil in Hin).
  pose proof (proj1 (common_timeline_elem token_data ts Hnd Hne) Hts) as Hall.
  apply build_price_map_dom. apply (Hall coin_id).
  rewrite build_price_maps_map by done.
  apply list_elem_of_fmap. by exists (coin_id, data).
Qed.

(** X3: every bucket of the common timeline is the bucket of a point of
    each series, so the common timeline is never longer than the shortest
    series, and a series without points leaves it empty. *)
Theorem common_timeline_within_series
    (token_data : list (string * list point)) (coin_id : string)
    (data : list point) :
  NoDup (dict_keys token_data) → (coin_id, data) ∈ token_data →
  (∀ ts, ts ∈ common_timeline token_data →
         ∃ sample, sample ∈ data ∧ bucket (timestamp sample) = ts)
  ∧ (length (common_timeline token_data) ≤ length data)%nat
  ∧ (data = [] → common_timeline token_data = []).
Proof.
  intros Hnd Hin.
  assert (Hlen : (length (common_timeline token_data) ≤ length data)%nat).
  { rewrite <- (length_fmap (λ sample, bucket (timestamp sample)) data).
    apply submseteq_length, NoDup_submseteq.
    - apply StronglySorted_lt_NoDup, common_timeline_ascending.
    - intros ts Hts.
      destruct (common_timeline_in_series _ _ _ _ Hnd Hin Hts) as (s & Hs & <-).
      apply list_elem_of_fmap. by exists s. }
  split; [intros ts; by apply (common_timeline_in_series _ coin_id)|].
  split; [done|].
  intros ->. cbn in Hlen. destruct (common_timeline token_data); [done|].
  cbn in Hlen. lia.
Qed.

Lemma common_timeline_within_series_witness :
  (length (common_timeline overlapping_series) ≤ 3)%nat
  ∧ common_timeline [("A", [pt (day 1) 10]); ("B", [])] = [].
Proof.
  split.
  - destruct (common_timeline_within_series overlapping_series "A"
                [pt (day 1 + 1000) 10; pt (day 2 + 2000) 11;
                 pt (day 3 + 3000) 12]) as (_ & Hlen & _).
    + apply (bool_decide_unpack _). by vm_compute.
    + left.
    + exact Hlen.
  - destruct (common_timeline_within_series
                [("A", [pt (day 1) 10]); ("B", [])] "B" [])
      as (_ & _ & Hempty).
    + apply (bool_decide_unpack _). by vm_compute.
    + right. left.
    + by apply Hempty.
Defined.

(** ** The windows and the log *)

Lemma correlate_and_save_frame (tf : timeframe) (keys : list string)
    (aligned : aligned_data) (log : fs_log) :
  correlate_and_save tf keys aligned log
  = (log ++ (correlate_and_save tf keys aligned []).1,
     (correlate_and_save tf keys aligned []).2).
Proof.
  unfold correlate_and_save.
  destruct (bool_decide _ && _); [|by rewrite app_nil_r].
  destruct (_ ≫= _) as [cs|e]; cbn; [done|by rewrite app_nil_r].
Qed.

Lemma save_data_for_timeframe_frame (api : string → Z → response)
    (local_date : Z → string) (tf : timeframe) (log : fs_log) :
  save_data_for_timeframe api local_date tf log
  = (log ++ (save_data_for_timeframe api local_date tf []).1,
     (save_data_for_timeframe api local_date tf []).2).
Proof.
  rewrite !save_data_for_timeframe_eq. cbv zeta.
  destruct (length _ <? 2)%nat; [done|].
  destruct (bool_decide _); [done|].
  destruct (common_timeline _) as [|ts tss]; [done|].
  rewrite (correlate_and_save_frame _ _ _ ((log ++ _) ++ _)).
  rewrite (correlate_and_save_frame _ _ _ (([] ++ _) ++ _)). cbn.
  by rewrite <- !app_assoc.
Qed.

Lemma run_timeframes_frame (api : string → Z → response)
    (local_date : Z → string) (tfs : list timeframe) (log : fs_log) :
  run_timeframes api local_date tfs log
  = (log ++ (run_timeframes api local_date tfs []).1,
     (run_timeframes api local_date tfs []).2).
Proof.
  revert log. induction tfs as [|tf tfs IH]; intros log; cbn [run_timeframes].
  { by rewrite app_nil_r. }
  rewrite (save_data_for_timeframe_frame api local_date tf log).
  destruct (save_data_for_timeframe api local_date tf []) as [new [[]|e]];
    cbn [fst snd]; [|done].
  rewrite (IH (log ++ new)), (IH new). cbn. by rewrite <- app_assoc.
Qed.

(** X4: a window and a run only append to the log: the entries already
    there are kept, and what is appended and whether an exception leaves
    does not depend on them.  A run over several windows appends what each
    window appends, in turn, up to the first window that raises. *)
Theorem log_is_append_only (api : string → Z → response)
    (local_date : Z → string) (tf : timeframe) (tfs : list timeframe)
    (log : fs_log) :
  save_data_for_timeframe api local_date tf log
  = (log ++ (save_data_for_timeframe api local_date tf []).1,
     (save_data_for_timeframe api local_date tf []).2)
  ∧ main api local_date log
    = (log ++ (main api local_date []).1, (main api local_date []).2)
  ∧ run_timeframes api local_date (tf :: tfs) log
    = match (save_data_for_timeframe api local_date tf []).2 with
      | Ret _ =>
          (log ++ (save_data_for_timeframe api local_date tf []).1
               ++ (run_timeframes api local_date tfs []).1,
           (run_timeframes api local_date tfs []).2)
      | Raise e =>
          (log ++ (save_data_for_timeframe api local_date tf []).1, Raise e)
      end.
Proof.
  split; [apply save_data_for_timeframe_frame|].
  split; [apply run_timeframes_frame|].
  cbn [run_timeframes].
  rewrite (save_data_for_timeframe_frame api local_date tf log).
  destruct (save_data_for_timeframe api local_date tf []) as [new [[]|e]];
    cbn [fst snd]; [|done].
  rewrite run_timeframes_frame. by rewrite <- app_assoc.
Qed.

(** The targets of what a window appends are among its own files, in
    their order. *)
Lemma window_targets (api : string → Z → response) (local_date : Z → string)
    (tf : timeframe) :
  (save_data_for_timeframe api local_date tf []).1.*1
  `sublist_of` window_files tf.
Proof.
  assert (Hraw : (raw_writes api tf (dict_keys TOKENS)).*1
                 `sublist_of` (λ c, raw_filename c (name tf)) <$> dict_keys TOKENS).
  { unfold raw_writes. rewrite <- list_fmap_compose.
    apply (fmap_sublist (λ c, raw_filename c (name tf))), sublist_filter. }
  unfold window_files.
  destruct (save_data_for_timeframe_log api local_date tf [])
    as [Hlog|[Hlog|(nil_prices & cs & _ & Hlog)]];
    rewrite Hlog; cbn [app]; rewrite ?fmap_app.
  - by apply sublist_inserts_r.
  - apply sublist_app; [done|]. cbn. apply sublist_skip, sublist_cons, sublist_nil_l.
  - by apply sublist_app.
Qed.

Lemma run_targets (api : string → Z → response) (local_date : Z → string)
    (tfs : list timeframe) :
  (run_timeframes api local_date tfs []).1.*1
  `sublist_of` (tfs ≫= window_files).
Proof.
  induction tfs as [|tf tfs IH]; [done|].
  cbn [run_timeframes mbind list_bind].
  pose proof (window_targets api local_date tf) as Hw.
  destruct (save_data_for_timeframe api local_date tf []) as [new [[]|e]];
    cbn [fst snd] in *.
  - rewrite run_timeframes_frame. cbn [fst]. rewrite fmap_app.
    by apply sublist_app.
  - by apply sublist_inserts_r.
Qed.

(** X5: in one run no file is written twice: the files written are among
    the raw files of the configured assets, the aligned file and the
    correlation file of each window, in that order, each at most once. *)
Theorem run_writes_each_file_once (api : string → Z → response)
    (local_date : Z → string) :
  (main api local_date []).1.*1 `sublist_of` (TIMEFRAMES ≫= window_files)
  ∧ NoDup (main api local_date []).1.*1.
Proof.
  pose proof (run_targets api local_date TIMEFRAMES) as Hsub.
  split; [exact Hsub|].
  eapply sublist_NoDup; [|exact Hsub].
  apply (bool_decide_unpack _). by vm_compute.
Qed.

(** ** The fetch loop and the raw files *)

(** X6: after the fetch loop every configured asset is either a key of
    [token_data], when its fetch gave at least one point, or on the list of
    failed assets, when it gave none, and never both; [token_data] maps an
    asset to exactly the list its fetch returned, and its keys are distinct. *)
Theorem fetch_loop_partitions_tokens (api : string → Z → response)
    (tf : timeframe) (log : fs_log) :
  let st := fetch_tokens api tf log in
  (∀ c, c ∈ dict_keys (token_data st)
        ↔ c ∈ dict_keys TOKENS ∧ fetch_price_data api c (days tf) ≠ [])
  ∧ (∀ c, c ∈ failed_tokens st
          ↔ c ∈ dict_keys TOKENS ∧ fetch_price_data api c (days tf) = [])
  ∧ (∀ c data, dict_get (token_data st) c = Some data
               ↔ c ∈ dict_keys TOKENS ∧ data ≠ []
                 ∧ data = fetch_price_data api c (days tf))
  ∧ NoDup (dict_keys (token_data st))
  ∧ NoDup (failed_tokens st)
  ∧ dict_keys (token_data st) ++ failed_tokens st ≡ₚ dict_keys TOKENS.
Proof.
  cbv zeta. rewrite fetch_tokens_eq. cbn [token_data failed_tokens].
  pose proof (fetched_data_NoDup api tf _ TOKENS_keys_NoDup) as Hnd.
  split; [intros c; rewrite fetched_data_keys; apply succeeded_elem|].
  split; [intros c; apply failed_elem|].
  split; [|split; [done|split]].
  - intros c data. split.
    + intros Hget%dict_get_Some_elem.
      apply fetched_data_nonempty in Hget as (-> & Hne & Hc). done.
    + intros (Hc & Hne & ->). apply dict_get_elem; [done|].
      unfold fetched_data. apply list_elem_of_fmap. exists c.
      split; [done|]. by apply succeeded_elem.
  - unfold failed. apply NoDup_filter, TOKENS_keys_NoDup.
  - rewrite fetched_data_keys. unfold succeeded, failed.
    apply filter_app_complement.
Qed.

(** X7: the series fetched for an asset is persisted whatever happens to
    the window afterwards (abandoned, no common day, an exception in the
    correlation): the log holds the asset's raw file with exactly the list
    the fetch returned, and no other content under that name. *)
Theorem fetched_series_is_persisted (api : string → Z → response)
    (local_date : Z → string) (tf : timeframe) (log : fs_log)
    (coin_id : string) :
  coin_id ∈ dict_keys TOKENS → fetch_price_data api coin_id (days tf) ≠ [] →
  (raw_filename coin_id (name tf), JRaw (fetch_price_data api coin_id (days tf)))
  ∈ (save_data_for_timeframe api local_date tf log).1
  ∧ ∀ content,
      (raw_filename coin_id (name tf), content)
      ∈ (save_data_for_timeframe api local_date tf []).1 →
      content = JRaw (fetch_price_data api coin_id (days tf)).
Proof.
  intros Hc Hne.
  assert (Hin : (raw_filename coin_id (name tf),
                 JRaw (fetch_price_data api coin_id (days tf)))
                ∈ raw_writes api tf (dict_keys TOKENS)).
  { unfold raw_writes. apply list_elem_of_fmap. exists coin_id.
    split; [done|]. by apply succeeded_elem. }
  assert (Hraw : ∀ content,
    (raw_filename coin_id (name tf), content) ∈ raw_writes api tf (dict_keys TOKENS) →
    content = JRaw (fetch_price_data api coin_id (days tf))).
  { intros content (c & Heq & Hs)%list_elem_of_fmap.
    apply succeeded_elem in Hs as [Hs _].
    pose proof (f_equal fst Heq) as Hname.
    pose proof (f_equal snd Heq) as Hcont.
    cbv beta in Hname, Hcont. cbn [fst snd] in Hname, Hcont.
    apply raw_filename_inj in Hname; [|done..]. by subst c content. }
  split.
  - rewrite save_data_for_timeframe_frame. cbn [fst].
    apply elem_of_app. right.
    destruct (save_data_for_timeframe_log api local_date tf [])
      as [Hlog|[Hlog|(nil_prices & cs & _ & Hlog)]];
      rewrite Hlog; cbn [app]; [done|apply elem_of_app; by left..].
  - intros content.
    destruct (save_data_for_timeframe_log api local_date tf [])
      as [Hlog|[Hlog|(nil_prices & cs & _ & Hlog)]];
      rewrite Hlog; cbn [app]; [apply Hraw| |].
    + intros [?|Hin'%list_elem_of_singleton]%elem_of_app; [by apply Hraw|].
      pose proof (f_equal fst Hin') as Heq. cbn [fst] in Heq.
      by apply raw_not_aligned in Heq.
    + intros [?|Hin']%elem_of_app; [by apply Hraw|].
      apply elem_of_cons in Hin' as [Hin'|Hin'%list_elem_of_singleton].
      * pose proof (f_equal fst Hin') as Heq. cbn [fst] in Heq.
        by apply raw_not_aligned in Heq.
      * pose proof (f_equal fst Hin') as Heq. cbn [fst] in Heq.
        by apply raw_not_correlation in Heq.
Qed.

Lemma fetched_series_is_persisted_witness :
  ("data/correlation/nillion_30d.json",
   JRaw [pt (day 19675) 0; pt (day 19676) (1 # 2)])
  ∈ (save_data_for_timeframe api_zero_price fixed_date window_30d []).1.
Proof.
  destruct (fetched_series_is_persisted api_zero_price fixed_date window_30d
              [] "nillion") as [Hin _].
  - apply (bool_decide_unpack _). by vm_compute.
  - discriminate.
  - exact Hin.
Defined.

(** X8: when the series fetched in a window share no day, the window
    writes nothing after the raw files, returns normally, and the run goes
    on with the next window. *)
Theorem no_common_day_skips_alignment (api : string → Z → response)
    (local_date : Z → string) (tf : timeframe) (rest : list timeframe)
    (log : fs_log) :
  let st := fetch_tokens api tf log in
  common_timeline (token_data st) = [] →
  save_data_for_timeframe api local_date tf log = (fetch_log st, Ret ())
  ∧ fetch_log st = log ++ raw_writes api tf (dict_keys TOKENS)
  ∧ run_timeframes api local_date (tf :: rest) log
    = run_timeframes api local_date rest (fetch_log st).
Proof.
  cbv zeta. rewrite fetch_tokens_eq. cbn [token_data fetch_log].
  intros Hcommon.
  assert (Hsave : save_data_for_timeframe api local_date tf log
                  = (log ++ raw_writes api tf (dict_keys TOKENS), Ret ())).
  { rewrite save_data_for_timeframe_eq. cbv zeta. rewrite Hcommon.
    destruct (length _ <? 2)%nat; [done|]. by destruct (bool_decide _). }
  split; [done|]. split; [done|].
  cbn [run_timeframes]. by rewrite Hsave.
Qed.

Lemma no_common_day_skips_alignment_witness :
  main api_disjoint_days fixed_date []
  = ([("data/correlation/bitcoin_30d.json", JRaw [pt (day 19675) 35000]);
      ("data/correlation/nillion_30d.json", JRaw [pt (day 19676) (1 # 2)]);
      ("data/correlation/bitcoin_90d.json", JRaw [pt (day 19675) 35000]);
      ("data/correlation/nillion_90d.json", JRaw [pt (day 19676) (1 # 2)])],
     Ret ()).
Proof.
  unfold main, TIMEFRAMES.
  destruct (no_common_day_skips_alignment api_disjoint_days fixed_date
              {| name := "30d"; days := 30 |}
              [ {| name := "90d"; days := 90 |} ] []) as (_ & _ & Hrun).
  - vm_compute. reflexivity.
  - rewrite Hrun. vm_compute. reflexivity.
Defined.

(** ** calculate_correlation on all inputs *)

Lemma priors_dec (p : list Q) :
  priors_nonzero p
  ∨ ∃ i, (1 ≤ i < length p)%nat ∧ (nth (i - 1) p 0 == 0)%Q.
Proof.
  unfold priors_nonzero. generalize (length p) as n.
  induction n as [|n [IH|(i & Hi & Hz)]].
  - left. intros i Hi. lia.
  - destruct (decide (1 ≤ n)%nat) as [Hn|Hn].
    + destruct (Qeq_dec (nth (n - 1) p 0%Q) 0%Q) as [Hz|Hnz].
      * right. exists n. split; [lia|done].
      * left. intros i Hi. destruct (decide (i = n)) as [->|]; [done|].
        apply IH. lia.
    + left. intros i Hi. lia.
  - right. exists i. split; [lia|done].
Qed.

Lemma pearson_cases (x y : list R) :
  length x = length y →
  Population.pearson x y = NaN
  ∨ ∃ r, Population.pearson x y = Fin r ∧ (-1 <= r <= 1)%R.
Proof.
  intros Hlen.
  destruct (Req_dec_T (Population.variance x) 0) as [Vx|Vx].
  { left. apply pearson_undefined. by left. }
  destruct (Req_dec_T (Population.variance y) 0) as [Vy|Vy].
  { left. apply pearson_undefined. by right. }
  right. by apply pearson_bounded.
Qed.


(** X10: two prices per vector are not enough: the single return of each
    vector has no variance, and the result is [nan] whatever the four
    prices are, the first of each vector being nonzero. *)
Theorem two_prices_give_nan (a0 a1 b0 b1 : Q) :
  ¬ (a0 == 0)%Q → ¬ (b0 == 0)%Q →
  calculate_correlation [a0; a1] [b0; b1] = Ret (VFloat NaN).
Proof.
  intros Ha Hb.
  rewrite calculate_correlation_value; [|done|cbn; lia| |].
  - do 2 f_equal. apply pearson_undefined. left.
    apply variance_zero_iff. left. apply cdot_short.
    by rewrite length_fmap, simple_returns_length.
  - intros i Hi. cbn in Hi. by replace i with 1%nat by lia.
  - intros i Hi. cbn in Hi. by replace i with 1%nat by lia.
Qed.

Lemma two_prices_give_nan_witness :
  calculate_correlation [100; 110]%Q [5; 4]%Q = Ret (VFloat NaN).
Proof. apply two_prices_give_nan; q_nonzero. Defined.

Section Invariance.
Local Open Scope R_scope.

Lemma variance_all_zero (x : list R) :
  Forall (λ v, v = 0) x → Population.variance x = 0.
Proof.
  intros Hall. apply variance_zero_iff. left.
  assert (Hsum : Np.sum x = 0).
  { unfold Np.sum. induction Hall as [|v x -> _ IH]; cbn; [done|lra]. }
  assert (Havg : Np.average x = 0).
  { unfold Np.average. rewrite Hsum. unfold Rdiv. ring. }
  rewrite Havg. clear Hsum Havg. unfold cdot, Np.sum.
  induction Hall as [|v x -> _ IH]; cbn; [done|].
  rewrite IH. ring.
Qed.

Lemma Q2R_zero (q : Q) : (q == 0)%Q → Q2R q = 0.
Proof. intros Hq. rewrite (Qeq_eqR _ _ Hq). unfold Q2R. cbn. lra. Qed.

End Invariance.






(** X12: a price vector that never moves has returns that are all zero,
    and its correlation with any other vector, in either position, is
    [nan]. *)
Theorem constant_prices_give_nan (c : Q) (prices1 prices2 : list Q) :
  ¬ (c == 0)%Q → Forall (λ v, (v == c)%Q) prices1 →
  length prices1 = length prices2 → (2 ≤ length prices1)%nat →
  priors_nonzero prices2 →
  calculate_correlation prices1 prices2 = Ret (VFloat NaN)
  ∧ calculate_correlation prices2 prices1 = Ret (VFloat NaN).
Proof.
  intros Hc Hall Hlen Hge H2.
  assert (Hnth : ∀ i, (i < length prices1)%nat → (nth i prices1 0 == c)%Q).
  { intros i Hi. destruct (lookup_lt_is_Some_2 prices1 i Hi) as [x Hx].
    rewrite (nth_lookup_Some _ _ _ _ Hx).
    by apply (Forall_lookup_1 _ _ _ _ Hall Hx). }
  assert (H1 : priors_nonzero prices1).
  { intros i Hi. rewrite Hnth by lia. done. }
  assert (Hvar : Population.variance (Q2R <$> simple_returns prices1) = 0%R).
  { apply variance_all_zero. apply Forall_fmap.
    unfold simple_returns. apply Forall_fmap, Forall_forall.
    intros i [_ Hi]%elem_of_seq. cbn. apply Q2R_zero. unfold return_at.
    rewrite (Hnth i), (Hnth (i - 1)%nat) by lia. field. done. }
  rewrite !calculate_correlation_value by (done || lia).
  split; do 2 f_equal; apply pearson_undefined; [by left|by right].
Qed.

Lemma constant_prices_give_nan_witness :
  calculate_correlation [7; 7; 7]%Q [1; 2; 4]%Q = Ret (VFloat NaN).
Proof.
  destruct (constant_prices_give_nan 7 [7; 7; 7]%Q [1; 2; 4]%Q) as [Hnan _].
  - q_nonzero.
  - repeat constructor.
  - reflexivity.
  - cbn. lia.
  - apply nonzero_priors. q_nonzero.
  - exact Hnan.
Defined.

(** ** The correlation step of a window *)

Lemma dict_set_elem {K V} `{EqDecision K} (d : list (K * V)) (k : K) (v : V)
    (e : K * V) :
  e ∈ dict_set d k v → e = (k, v) ∨ e ∈ d.
Proof.
  induction d as [|[k0 v0] d IH]; cbn.
  - rewrite list_elem_of_singleton. by left.
  - case_decide as Hk; rewrite !elem_of_cons.
    + intros [->|Hin]; [by left|right; by right].
    + intros [->|Hin]; [right; by left|].
      destruct (IH Hin); [by left|right; by right].
Qed.

(** On vectors of one length, at least 2, the function returns a float or
    raises [ZeroDivisionError], the latter exactly when it divides by 0. *)
Lemma calculate_correlation_dichotomy (p1 p2 : list Q) :
  length p1 = length p2 → (2 ≤ length p1)%nat →
  (priors_nonzero p1 ∧ priors_nonzero p2
   ∧ calculate_correlation p1 p2
     = Ret (VFloat (Population.pearson (Q2R <$> simple_returns p1)
                                       (Q2R <$> simple_returns p2))))
  ∨ ((¬ priors_nonzero p1 ∨ ¬ priors_nonzero p2)
     ∧ calculate_correlation p1 p2 = Raise ZeroDivisionError).
Proof.
  intros Hlen Hge.
  destruct (priors_dec p1) as [H1|(i & Hi & Hz)].
  2: { right. split; [left; intros Hp; by apply (Hp i)|].
       apply calculate_correlation_raises; [done..|].
       exists i. split; [done|by left]. }
  destruct (priors_dec p2) as [H2|(i & Hi & Hz)].
  2: { right. split; [right; intros Hp; by apply (Hp i)|].
       apply calculate_correlation_raises; [done..|].
       exists i. split; [lia|by right]. }
  left. split; [done|]. split; [done|]. by apply calculate_correlation_value.
Qed.

Lemma dict_getitem_Some {K V} `{EqDecision K} (d : list (K * V)) (k : K) (v : V) :
  dict_get d k = Some v → dict_getitem d k = Ret v.
Proof. intros Hget. unfold dict_getitem. by rewrite Hget. Qed.

Lemma TOKENS_getitem (c : string) :
  c ∈ dict_keys TOKENS →
  dict_getitem TOKENS c = Ret (default "" (dict_get TOKENS c)).
Proof.
  intros [s Hs]%dict_get_is_Some. unfold dict_getitem. by rewrite Hs.
Qed.

Lemma correlation_key_inj (c c' : string) :
  c ∈ dict_keys TOKENS → c' ∈ dict_keys TOKENS →
  correlation_key c = correlation_key c' → c = c'.
Proof.
  intros [s Hs]%dict_get_is_Some [s' Hs']%dict_get_is_Some.
  unfold correlation_key. rewrite Hs, Hs'. cbn. intros Heq.
  injection Heq as Heq. by apply (symbol_inj _ _ _ _ Hs Hs').
Qed.

Ltac ret_bind := change (Ret ?a ≫= ?k) with (k a); cbv beta.

Section CorrelateLoop.
Variable aligned : aligned_data.
Variable nil_prices : list Q.

(** What one asset contributes to the correlation mapping. *)
Let entry_of (c : string) (kv : string * value) : Prop :=
  kv.1 = correlation_key c
  ∧ ∃ col, dict_get (prices aligned) c = Some col
           ∧ calculate_correlation nil_prices col = Ret kv.2.

Lemma correlate_body_skip (acc : list (string * value)) :
  correlate_body aligned nil_prices acc "nillion" = Ret acc.
Proof. unfold correlate_body. by rewrite decide_False by (by intros ?). Qed.

Lemma correlate_body_ok (acc : list (string * value)) (c : string)
    (col : list Q) (v : value) :
  c ≠ "nillion" → c ∈ dict_keys TOKENS →
  dict_get (prices aligned) c = Some col →
  calculate_correlation nil_prices col = Ret v →
  correlate_body aligned nil_prices acc c
  = Ret (dict_set acc (correlation_key c) v).
Proof.
  intros Hne Hc Hcol Hv. unfold correlate_body.
  rewrite decide_True by done.
  rewrite (dict_getitem_Some _ _ _ Hcol). ret_bind. rewrite Hv. ret_bind.
  rewrite TOKENS_getitem by done. by ret_bind.
Qed.


(** When every correlation is computed, the loop appends one entry per
    asset other than the reference, in the order of the keys. *)
Lemma correlate_loop_ok (keys : list string) (acc : list (string * value)) :
  NoDup keys → (∀ c, c ∈ keys → c ∈ dict_keys TOKENS) →
  (∀ c, c ∈ keys → c ≠ "nillion" →
        ∃ col v, dict_get (prices aligned) c = Some col
                 ∧ calculate_correlation nil_prices col = Ret v) →
  (∀ c, c ∈ keys → c ≠ "nillion" → correlation_key c ∉ dict_keys acc) →
  ∃ new, for_each (correlate_body aligned nil_prices) keys acc = Ret (acc ++ new)
         ∧ Forall2 entry_of (filter (λ c, c ≠ "nillion") keys) new.
Proof using Type.
  revert acc. induction keys as [|c keys IH]; intros acc Hnd Htok Hok Hfresh.
  { exists []. cbn. rewrite app_nil_r. split; [done|constructor]. }
  apply NoDup_cons in Hnd as [Hc Hnd]. cbn [for_each]. rewrite filter_cons.
  destruct (decide (c ≠ "nillion")) as [Hne|Heq].
  - destruct (Hok c) as (col & v & Hcol & Hv); [left|done|].
    rewrite (correlate_body_ok _ _ col v) by (done || apply Htok; left). cbn.
    rewrite dict_set_new by (apply Hfresh; [left|done]).
    destruct (IH (acc ++ [(correlation_key c, v)])) as (new & Hrun & Hall).
    + done.
    + intros c' Hc'. apply Htok. by right.
    + intros c' Hc'. apply Hok. by right.
    + intros c' Hc' Hne'. unfold dict_keys. rewrite fmap_app, elem_of_app. cbn.
      intros [Hin|Hin%list_elem_of_singleton].
      * apply (Hfresh c'); [by right|done..].
      * apply correlation_key_inj in Hin; [by subst c'| |].
        -- apply Htok. by right.
        -- apply Htok. left.
    + exists ((correlation_key c, v) :: new). split.
      * by rewrite Hrun, <- app_assoc.
      * constructor; [|done]. split; [done|]. by exists col.
  - apply dec_stable in Heq. subst c. rewrite correlate_body_skip. cbn.
    apply IH; [done|..].
    + intros c' Hc'. apply Htok. by right.
    + intros c' Hc'. apply Hok. by right.
    + intros c' Hc'. apply Hfresh. by right.
Qed.


(** The values of the mapping the loop returns are results of
    [calculate_correlation] on the reference column and another column. *)
Lemma correlate_loop_values (keys : list string) (acc cs : list (string * value))
    (kv : string * value) :
  for_each (correlate_body aligned nil_prices) keys acc = Ret cs → kv ∈ cs →
  kv ∈ acc
  ∨ ∃ c col, c ∈ keys ∧ c ≠ "nillion" ∧ dict_get (prices aligned) c = Some col
             ∧ calculate_correlation nil_prices col = Ret kv.2.
Proof using Type.
  revert acc. induction keys as [|c keys IH]; intros acc Hrun Hkv.
  { cbn in Hrun. simplify_eq. by left. }
  cbn [for_each] in Hrun. apply bind_Ret_inv in Hrun as (acc' & Hbody & Hrun).
  destruct (IH acc' Hrun Hkv) as [Hacc|(c' & col & Hc' & Hne & Hcol & Hv)].
  2: { right. exists c', col. split; [by right|done]. }
  unfold correlate_body in Hbody. case_decide as Hnil; [|simplify_eq; by left].
  apply bind_Ret_inv in Hbody as (tp & Htp & Hbody).
  apply bind_Ret_inv in Hbody as (corr & Hcorr & Hbody).
  apply bind_Ret_inv in Hbody as (s & _ & Hbody).
  injection Hbody as <-. apply dict_set_elem in Hacc as [->|Hacc]; [|by left].
  right. exists c, tp. split; [left|]. split; [done|]. split; [|done].
  unfold dict_getitem in Htp. by destruct (dict_get (prices aligned) c); simplify_eq.
Qed.

End CorrelateLoop.

Lemma aligned_of_keys (local_date : Z → string)
    (token_data : list (string * list point)) :
  dict_keys (prices (aligned_of local_date token_data)) = dict_keys token_data.
Proof.
  unfold aligned_of, dict_keys. cbn. rewrite <- list_fmap_compose. cbn.
  by rewrite list_fmap_id.
Qed.

Lemma aligned_of_get (local_date : Z → string)
    (token_data : list (string * list point)) (c : string) :
  NoDup (dict_keys token_data) → c ∈ dict_keys token_data →
  dict_get (prices (aligned_of local_date token_data)) c
  = Some (price_on (build_price_maps token_data) c
            <$> common_timeline token_data).
Proof.
  intros Hnd Hc. apply dict_get_elem.
  - by rewrite aligned_of_keys.
  - unfold aligned_of. cbn. apply list_elem_of_fmap. by exists c.
Qed.

Lemma aligned_of_elem (local_date : Z → string)
    (token_data : list (string * list point)) (c : string) (col : list Q) :
  (c, col) ∈ prices (aligned_of local_date token_data) →
  c ∈ dict_keys token_data ∧ length col = length (common_timeline token_data).
Proof.
  unfold aligned_of. cbn. intros (c' & Heq & Hc)%list_elem_of_fmap.
  simplify_eq. split; [done|]. by rewrite length_fmap.
Qed.


Section CorrelationStep.
Variable api : string → Z → response.
Variable local_date : Z → string.
Variable tf : timeframe.

Let td := fetched_data api tf (dict_keys TOKENS).
Let aligned := aligned_of local_date td.
Let written := raw_writes api tf (dict_keys TOKENS)
               ++ [(aligned_filename (name tf), JAligned aligned)].

Lemma td_keys_TOKENS (c : string) : c ∈ dict_keys td → c ∈ dict_keys TOKENS.
Proof using Type.
  unfold td. rewrite fetched_data_keys, succeeded_elem. by intros [? _].
Qed.

(** A window that passes the checks and has at least 2 common days runs
    the correlation loop on the column of nillion. *)
Lemma window_reaches_correlation (log : fs_log) :
  (2 ≤ length td)%nat → "nillion" ∈ dict_keys td →
  (2 ≤ length (common_timeline td))%nat →
  ∃ nil_prices,
    dict_get (prices aligned) "nillion" = Some nil_prices
    ∧ length nil_prices = length (common_timeline td)
    ∧ save_data_for_timeframe api local_date tf log
      = match for_each (correlate_body aligned nil_prices) (dict_keys td) [] with
        | Ret cs =>
            (log ++ written
                 ++ [(correlation_filename (name tf), JCorrelations cs)], Ret ())
        | Raise e => (log ++ written, Raise e)
        end.
Proof using Type.
  intros Hlen Hnil Hcommon.
  pose proof (aligned_of_get local_date td "nillion"
                (td_NoDup api tf) Hnil) as Hget.
  fold aligned in Hget. eexists. split; [exact Hget|].
  split; [by rewrite length_fmap|].
  rewrite save_data_for_timeframe_eq. cbv zeta. fold td aligned.
  destruct (Nat.ltb_spec (length td) 2) as [?|_]; [lia|].
  rewrite bool_decide_eq_false_2
    by (apply not_eq_None_Some; by apply dict_get_is_Some).
  destruct (common_timeline td) as [|ts tss] eqn:Hc; [cbn in Hcommon; lia|].
  rewrite <- Hc in *. unfold correlate_and_save.
  rewrite bool_decide_eq_true_2 by (rewrite Hget; by eexists).
  assert (Hdates : length (dates aligned) = length (common_timeline td)).
  { unfold aligned, aligned_of. cbn [dates]. by rewrite length_fmap. }
  destruct (Nat.ltb_spec 1 (length (dates aligned))) as [_|?]; [|lia].
  cbn [andb]. rewrite (dict_getitem_Some _ _ _ Hget). ret_bind.
  unfold written.
  destruct (for_each _ (dict_keys td) []) as [cs|e]; by rewrite <- !app_assoc.
Qed.

Lemma window_correlates (log : fs_log) :
  (2 ≤ length td)%nat → "nillion" ∈ dict_keys td →
  (2 ≤ length (common_timeline td))%nat →
  (∀ c col, (c, col) ∈ prices aligned → priors_nonzero col) →
  ∃ nil_prices cs,
    dict_get (prices aligned) "nillion" = Some nil_prices
    ∧ save_data_for_timeframe api local_date tf log
      = (log ++ written ++ [(correlation_filename (name tf), JCorrelations cs)],
         Ret ())
    ∧ Forall2 (λ c kv,
                 kv.1 = correlation_key c
                 ∧ ∃ col, dict_get (prices aligned) c = Some col
                          ∧ kv.2 = VFloat (Population.pearson
                                             (Q2R <$> simple_returns nil_prices)
                                             (Q2R <$> simple_returns col)))
              (filter (λ c, c ≠ "nillion") (dict_keys td)) cs.
Proof using Type.
  intros Hlen Hnil Hcommon Hnz.
  destruct (window_reaches_correlation log Hlen Hnil Hcommon)
    as (nil_prices & Hget & Hnlen & Hsave).
  assert (Hcol : ∀ c, c ∈ dict_keys td →
            ∃ col, dict_get (prices aligned) c = Some col
                   ∧ calculate_correlation nil_prices col
                     = Ret (VFloat (Population.pearson
                                      (Q2R <$> simple_returns nil_prices)
                                      (Q2R <$> simple_returns col)))).
  { intros c Hc.
    pose proof (aligned_of_get local_date td c (td_NoDup api tf) Hc) as Hg.
    fold aligned in Hg. eexists. split; [exact Hg|].
    apply calculate_correlation_value.
    - by rewrite Hnlen, length_fmap.
    - lia.
    - apply (Hnz "nillion"). by apply dict_get_Some_elem.
    - apply (Hnz c). by apply dict_get_Some_elem. }
  destruct (correlate_loop_ok aligned nil_prices (dict_keys td) [])
    as (cs & Hrun & Hall).
  - apply td_NoDup.
  - apply td_keys_TOKENS.
  - intros c Hc _. destruct (Hcol c Hc) as (col & Hg & Hv). by eauto.
  - intros c _ _. apply not_elem_of_nil.
  - exists nil_prices, cs. split; [done|]. rewrite Hsave, Hrun. cbn [app].
    split; [done|].
    eapply Forall2_impl; [exact Hall|]. cbv beta.
    intros c kv [Hk (col & Hg & Hv)]. split; [done|]. exists col. split; [done|].
    assert (Hc : c ∈ dict_keys td).
    { apply dict_get_Some_elem, aligned_of_elem in Hg. by destruct Hg. }
    destruct (Hcol c Hc) as (col' & Hg' & Hv'). fold aligned in Hg.
    rewrite Hg in Hg'. injection Hg' as <-. rewrite Hv in Hv'.
    by injection Hv'.
Qed.


(** A correlation mapping in the log of a window comes from the loop, run
    on the column of nillion with at least 2 common days. *)
Lemma correlations_written (filename : string) (cs : list (string * value)) :
  (filename, JCorrelations cs)
  ∈ (save_data_for_timeframe api local_date tf []).1 →
  ∃ nil_prices,
    dict_get (prices aligned) "nillion" = Some nil_prices
    ∧ (2 ≤ length (common_timeline td))%nat
    ∧ for_each (correlate_body aligned nil_prices) (dict_keys td) [] = Ret cs.
Proof using Type.
  assert (Hraw : (filename, JCorrelations cs)
                 ∉ raw_writes api tf (dict_keys TOKENS)).
  { unfold raw_writes. intros (c & Heq & _)%list_elem_of_fmap. discriminate Heq. }
  rewrite save_data_for_timeframe_eq. cbv zeta. fold td aligned. cbn [app].
  destruct (length td <? 2)%nat; [done|].
  destruct (bool_decide _); [done|].
  destruct (common_timeline td) as [|ts tss] eqn:Hc; [done|]. rewrite <- Hc.
  unfold correlate_and_save.
  assert (Hnot : (filename, JCorrelations cs)
                 ∉ raw_writes api tf (dict_keys TOKENS)
                   ++ [(aligned_filename (name tf), JAligned aligned)]).
  { intros [?|Hin%list_elem_of_singleton]%elem_of_app; [done|].
    discriminate Hin. }
  destruct (bool_decide _) eqn:Hnil; [|done].
  destruct (Nat.ltb_spec 1 (length (dates aligned))) as [Hd|_]; [|done].
  cbn [andb]. apply bool_decide_eq_true in Hnil as [nil_prices Hget].
  rewrite (dict_getitem_Some _ _ _ Hget). ret_bind.
  destruct (for_each _ (dict_keys td) []) as [cs'|e] eqn:Hrun; [|done].
  cbn [fst]. intros [?|Hin%list_elem_of_singleton]%elem_of_app; [done|].
  injection Hin as _ ->. exists nil_prices. split; [done|]. split; [|done].
  unfold aligned, aligned_of in Hd. cbn [dates] in Hd.
  rewrite length_fmap in Hd. lia.
Qed.

End CorrelationStep.


Lemma three_days_columns :
  prices (aligned_of fixed_date
            (token_data (fetch_tokens api_three_days window_30d [])))
  = [("bitcoin", [35000; 36000; 35500]%Q);
     ("ethereum", [2000; 2100; 2050]%Q);
     ("nillion", [1 # 2; 3 # 5; 1 # 2]%Q)].
Proof. vm_compute. reflexivity. Qed.

Lemma three_days_columns_nonzero (c : string) (col : list Q) :
  (c, col) ∈ prices (aligned_of fixed_date
                       (token_data (fetch_tokens api_three_days window_30d []))) →
  priors_nonzero col.
Proof.
  rewrite three_days_columns. rewrite !elem_of_cons, elem_of_nil.
  intros [H|[H|[H|[]]]]; injection H as _ ->; apply nonzero_priors; q_nonzero.
Qed.




(** X15: a correlation mapping that a window writes never holds the
    integer sentinel 0, nor an infinity: each of its values is what
    [calculate_correlation] returns on two aligned columns of one length,
    at least 2, hence [nan] or a number in [[-1, 1]]. *)
Theorem correlation_file_holds_no_sentinel (api : string → Z → response)
    (local_date : Z → string) (tf : timeframe) (filename key : string)
    (cs : list (string * value)) (v : value) :
  (filename, JCorrelations cs)
  ∈ (save_data_for_timeframe api local_date tf []).1 →
  (key, v) ∈ cs →
  v = VFloat NaN ∨ ∃ r, v = VFloat (Fin r) ∧ (-1 <= r <= 1)%R.
Proof.
  intros Hfile Hkv.
  apply correlations_written in Hfile as (nil_prices & Hget & Hcommon & Hrun).
  set (td := fetched_data api tf (dict_keys TOKENS)) in *.
  destruct (correlate_loop_values _ _ _ _ _ _ Hrun Hkv)
    as [Hin|(c & col & Hc & Hne & Hcol & Hv)].
  { by apply elem_of_nil in Hin. }
  cbn [snd] in Hv.
  apply dict_get_Some_elem, aligned_of_elem in Hget as [_ Hln].
  apply dict_get_Some_elem, aligned_of_elem in Hcol as [_ Hlc].
  destruct (calculate_correlation_dichotomy nil_prices col
              ltac:(by rewrite Hln, Hlc) ltac:(lia))
    as [(_ & _ & Hval)|[_ Hraise]].
  2: { rewrite Hraise in Hv. discriminate Hv. }
  rewrite Hval in Hv. injection Hv as <-.
  destruct (pearson_cases (Q2R <$> simple_returns nil_prices)
                          (Q2R <$> simple_returns col))
    as [->|(r & -> & Hr)].
  - by rewrite !length_fmap, !simple_returns_length, Hln, Hlc.
  - by left.
  - right. by exists r.
Qed.

Lemma correlation_file_holds_no_sentinel_witness :
  ∃ filename cs kv,
    (filename, JCorrelations cs)
    ∈ (save_data_for_timeframe api_three_days fixed_date window_30d []).1
    ∧ kv ∈ cs
    ∧ (kv.2 = VFloat NaN ∨ ∃ r, kv.2 = VFloat (Fin r) ∧ (-1 <= r <= 1)%R).
Proof.
  destruct (window_correlates api_three_days fixed_date window_30d [])
    as (nil_prices & cs & _ & Hsave & Hall).
  - apply (bool_decide_unpack _). by vm_compute.
  - apply (bool_decide_unpack _). by vm_compute.
  - apply (bool_decide_unpack _). by vm_compute.
  - intros c col Hin. apply (three_days_columns_nonzero c).
    by rewrite token_data_fetched.
  - assert (Hkeys : filter (λ c, c ≠ "nillion")
                      (dict_keys (fetched_data api_three_days window_30d
                                    (dict_keys TOKENS)))
                    = ["bitcoin"; "ethereum"]) by (vm_compute; reflexivity).
    rewrite Hkeys in Hall.
    apply Forall2_cons_inv_l in Hall as ([key v] & cs1 & _ & _ & ->).
    assert (Hfile : (correlation_filename (name window_30d),
                     JCorrelations ((key, v) :: cs1))
                    ∈ (save_data_for_timeframe api_three_days fixed_date
                         window_30d []).1).
    { rewrite Hsave. cbn [fst app]. apply elem_of_app. right. left. }
    exists (correlation_filename (name window_30d)), ((key, v) :: cs1), (key, v).
    split; [exact Hfile|]. split; [left|].
    apply (correlation_file_holds_no_sentinel _ _ _ _ key _ v Hfile). left.
Defined.

(** X16: two common days are not enough for a correlation: a window with
    exactly 2 common days that writes a correlation mapping writes [nan]
    for every pair, since each column then has a single return. *)
Theorem two_common_days_give_nan_file (api : string → Z → response)
    (local_date : Z → string) (tf : timeframe) (filename key : string)
    (cs : list (string * value)) (v : value) :
  length (common_timeline (token_data (fetch_tokens api tf []))) = 2%nat →
  (filename, JCorrelations cs)
  ∈ (save_data_for_timeframe api local_date tf []).1 →
  (key, v) ∈ cs →
  v = VFloat NaN.
Proof.
  rewrite token_data_fetched. intros Hcommon Hfile Hkv.
  apply correlations_written in Hfile as (nil_prices & Hget & _ & Hrun).
  destruct (correlate_loop_values _ _ _ _ _ _ Hrun Hkv)
    as [Hin|(c & col & Hc & Hne & Hcol & Hv)].
  { by apply elem_of_nil in Hin. }
  cbn [snd] in Hv.
  apply dict_get_Some_elem, aligned_of_elem in Hget as [_ Hln].
  apply dict_get_Some_elem, aligned_of_elem in Hcol as [_ Hlc].
  rewrite Hcommon in Hln, Hlc.
  destruct (calculate_correlation_dichotomy nil_prices col
              ltac:(by rewrite Hln, Hlc) ltac:(lia))
    as [(_ & _ & Hval)|[_ Hraise]].
  2: { rewrite Hraise in Hv. discriminate Hv. }
  rewrite Hval in Hv. injection Hv as <-. f_equal.
  apply pearson_undefined. left. apply variance_zero_iff. left.
  apply cdot_short. rewrite length_fmap, simple_returns_length. lia.
Qed.

Lemma two_common_days_give_nan_file_witness :
  ∃ cs, (correlation_filename "30d", JCorrelations cs)
        ∈ (save_data_for_timeframe api_two_days fixed_date window_30d []).1
        ∧ cs.*2 = [VFloat NaN].
Proof.
  destruct (window_correlates api_two_days fixed_date window_30d [])
    as (nil_prices & cs & _ & Hsave & Hall).
  - apply (bool_decide_unpack _). by vm_compute.
  - apply (bool_decide_unpack _). by vm_compute.
  - apply (bool_decide_unpack _). by vm_compute.
  - assert (Hp : prices (aligned_of fixed_date
                   (fetched_data api_two_days window_30d (dict_keys TOKENS)))
                 = [("bitcoin", [35000; 36000]%Q);
                    ("nillion", [1 # 2; 3 # 5]%Q)])
      by (vm_compute; reflexivity).
    intros c col. rewrite Hp, !elem_of_cons, elem_of_nil.
    intros [H|[H|[]]]; injection H as _ ->; apply nonzero_priors; q_nonzero.
  - assert (Hkeys : filter (λ c, c ≠ "nillion")
                      (dict_keys (fetched_data api_two_days window_30d
                                    (dict_keys TOKENS)))
                    = ["bitcoin"]) by (vm_compute; reflexivity).
    rewrite Hkeys in Hall.
    apply Forall2_cons_inv_l in Hall as ([key v] & cs1 & _ & Hall & ->).
    apply Forall2_nil_inv_l in Hall as ->.
    assert (Hfile : (correlation_filename "30d", JCorrelations [(key, v)])
                    ∈ (save_data_for_timeframe api_two_days fixed_date
                         window_30d []).1).
    { rewrite Hsave. cbn [fst app]. apply elem_of_app. right. left. }
    exists [(key, v)]. split; [exact Hfile|]. cbn. f_equal.
    apply (two_common_days_give_nan_file api_two_days fixed_date window_30d
             _ key _ v ltac:(vm_compute; reflexivity) Hfile). left.
Defined.
